(** * pdfParaExcel: the daily-balance extractor of [app.py]

    A shallow embedding of [extrair_dados_pdf] and of the report-building
    part of [main], with the regular expression [regex_saldo_dia] modelled
    through the operations the [re] engine runs for it. *)

From Stdlib Require Import List NArith Arith Bool String Ascii Lia Sorted Permutation.
Import ListNotations.

(** ** Python strings

    A Python [str] is a sequence of Unicode code points. *)

Definition str := list N.

(** A literal whose characters are all ASCII. *)
Definition u (s : string) : str := map N_of_ascii (list_ascii_of_string s).

(** The code point of an ASCII character. *)
Definition chr (a : ascii) : N := N_of_ascii a.

Fixpoint str_eqb (a b : str) : bool :=
  match a, b with
  | [], [] => true
  | x :: a', y :: b' => (x =? y)%N && str_eqb a' b'
  | _, _ => false
  end.

(** The string ["\n"]. *)
Definition newline : str := [10%N].

(** Python slicing [s[a:b]] for [0 <= a], [0 <= b]. *)
Definition slice (s : str) (a b : nat) : str := firstn (b - a) (skipn a s).

(** ** The character tables the interpreter consults *)

Module Unicode.

(** Every run of ten consecutive code points of category Nd
    (Unicode 14.0.0), by its first code point: [str.isdecimal], which is
    what [\d] tests in a [str] pattern. *)
Definition decimal_runs : list N :=
  [48; 1632; 1776; 1984; 2406; 2534; 2662; 2790; 2918; 3046; 3174; 3302;
   3430; 3558; 3664; 3792; 3872; 4160; 4240; 6112; 6160; 6470; 6608; 6784;
   6800; 6992; 7088; 7232; 7248; 42528; 43216; 43264; 43472; 43504; 43600;
   44016; 65296; 66720; 68912; 69734; 69872; 69942; 70096; 70384; 70736;
   70864; 71248; 71360; 71472; 71904; 72016; 72784; 73040; 73120; 92768;
   92864; 93008; 120782; 120792; 120802; 120812; 120822; 123200; 123632;
   125264; 130032]%N.

Definition isdecimal (c : N) : bool :=
  existsb (fun b => (b <=? c) && (c <? b + 10))%N decimal_runs.

(** The code points for which [str.isspace] holds: what [\s] tests in a
    [str] pattern and what [str.strip()] removes. *)
Definition whitespace : list N :=
  [9; 10; 11; 12; 13; 28; 29; 30; 31; 32; 133; 160; 5760; 8192; 8193; 8194;
   8195; 8196; 8197; 8198; 8199; 8200; 8201; 8202; 8232; 8233; 8239; 8287;
   12288]%N.

Definition isspace (c : N) : bool := existsb (N.eqb c) whitespace.

(** The simple lower-case mapping the engine applies to a character of the
    text under [re.IGNORECASE].  The table is given on the code points
    whose image is an ASCII letter (A-Z, U+0130 and U+212A); every other
    code point is left in place, which agrees with the interpreter wherever
    the image is compared with an ASCII letter, U+017F or U+0131, as the
    pattern below does. *)
Definition tolower (c : N) : N :=
  if ((65 <=? c) && (c <=? 90))%N then (c + 32)%N
  else if (c =? 304)%N then 105%N
  else if (c =? 8490)%N then 107%N
  else c.

End Unicode.

(** ** The matching engine

    The compiled form of a pattern is a sequence of operations; the ones this
    program's pattern compiles to are modelled. *)

Module Sre.

Inductive set_item : Type :=
| CATEGORY_DIGIT
| CATEGORY_SPACE
| SET_LITERAL (c : N).

Definition in_item (i : set_item) (c : N) : bool :=
  match i with
  | CATEGORY_DIGIT => Unicode.isdecimal c
  | CATEGORY_SPACE => Unicode.isspace c
  | SET_LITERAL l => (c =? l)%N
  end.

Definition charset (set : list set_item) (c : N) : bool :=
  existsb (fun i => in_item i c) set.

(** The operations that consume exactly one character. *)
Inductive single : Type :=
| LITERAL (c : N)
| LITERAL_UNI_IGNORE (lo : N)
| IN (set : list set_item)
| IN_UNI_IGNORE (set : list set_item).

Definition single_match (x : single) (c : N) : bool :=
  match x with
  | LITERAL l => (c =? l)%N
  | LITERAL_UNI_IGNORE lo => (Unicode.tolower c =? lo)%N
  | IN set => charset set c
  | IN_UNI_IGNORE set => charset set (Unicode.tolower c)
  end.

(** [REPEAT_ONE lo hi x] is the greedy repetition of a one-character
    operation, [hi = None] standing for no upper bound; [MARK n] records
    the current position as a group boundary (group [g] lies between marks
    [2g-2] and [2g-1]). *)
Inductive op : Type :=
| ONE (x : single)
| REPEAT_ONE (lo : nat) (hi : option nat) (x : single)
| MARK (n : nat).

(** How many leading characters of [s] match [x], at most [hi]. *)
Fixpoint sre_count (x : single) (hi : option nat) (s : str) : nat :=
  match hi, s with
  | Some 0, _ => 0
  | _, [] => 0
  | _, c :: s' =>
      if single_match x c
      then S (sre_count x (option_map pred hi) s')
      else 0
  end.

(** Try the continuation [f] with [k] repetitions, then [k-1], ..., down to
    [lo]: the longest repetition that lets the rest match wins. *)
Fixpoint backtrack {R : Type} (f : nat -> option R) (lo k : nat) : option R :=
  if k <? lo then None
  else match f k with
       | Some r => Some r
       | None => match k with
                 | 0 => None
                 | S k' => backtrack f lo k'
                 end
       end.

Definition marks := list (nat * nat).

(** Match [code] against the text from position [pos] on, [s] being the
    text from [pos]; the result is the end position and the marks. *)
Fixpoint sre_match (code : list op) (s : str) (pos : nat) (mk : marks)
  : option (nat * marks) :=
  match code with
  | [] => Some (pos, mk)
  | ONE x :: code' =>
      match s with
      | c :: s' =>
          if single_match x c then sre_match code' s' (S pos) mk else None
      | [] => None
      end
  | MARK n :: code' => sre_match code' s pos ((n, pos) :: mk)
  | REPEAT_ONE lo hi x :: code' =>
      backtrack (fun k => sre_match code' (skipn k s) (pos + k) mk)
                lo (sre_count x hi s)
  end.

(** A match object: its span and its marks, latest first. *)
Record Match : Type := mkMatch
  { m_start : nat; m_end : nat; m_marks : marks }.

Fixpoint lastmark (n : nat) (mk : marks) : option nat :=
  match mk with
  | [] => None
  | (k, p) :: mk' => if k =? n then Some p else lastmark n mk'
  end.

(** [match.start(g)] and [match.end(g)] for a group that took part. *)
Definition group_start (m : Match) (g : nat) : nat :=
  match lastmark (2 * g - 2) (m_marks m) with Some p => p | None => 0 end.
Definition group_end (m : Match) (g : nat) : nat :=
  match lastmark (2 * g - 1) (m_marks m) with Some p => p | None => 0 end.

(** [match.group(g)]. *)
Definition group (text : str) (m : Match) (g : nat) : str :=
  slice text (group_start m g) (group_end m g).

(** The match that starts at position [pos], if there is one. *)
Definition match_at (code : list op) (text : str) (pos : nat) : option Match :=
  match sre_match code (skipn pos text) pos [] with
  | Some (e, mk) => Some (mkMatch pos e mk)
  | None => None
  end.

(** The scan of [finditer]: [s] is the text from [pos] on and [skip] the
    number of characters still inside the last match found.  A match is
    tried at each position outside the matches already found, from left
    to right.  (After an empty match the scan moves on by one character;
    the pattern of this program has no empty match.) *)
Fixpoint scan (code : list op) (text s : str) (pos skip : nat) : list Match :=
  match s with
  | [] =>
      match skip, match_at code text pos with
      | 0, Some m => [m]
      | _, _ => []
      end
  | _ :: s' =>
      match skip with
      | S k => scan code text s' (S pos) k
      | 0 =>
          match match_at code text pos with
          | Some m => m :: scan code text s' (S pos) (m_end m - pos - 1)
          | None => scan code text s' (S pos) 0
          end
      end
  end.

Definition finditer (code : list op) (text : str) : list Match :=
  scan code text text 0 0.

End Sre.

(** ** [extrair_dados_pdf] *)

Module App.

Import Sre.

Definition digit : single := IN [CATEGORY_DIGIT].
Definition space : single := IN [CATEGORY_SPACE].
Definition digit_or_dot : single := IN [CATEGORY_DIGIT; SET_LITERAL (chr ".")].
Definition c_or_d : single :=
  IN_UNI_IGNORE [SET_LITERAL (chr "c"); SET_LITERAL (chr "d")].

(** [[\d\.],\d{2}] *)
Definition valor : list op :=
  [ONE digit_or_dot; ONE (LITERAL (chr ",")); REPEAT_ONE 2 (Some 2) digit].

(** [\s[CD]?] *)
Definition marcador : list op :=
  [ONE space; REPEAT_ONE 0 (Some 1) c_or_d].

(** [(\d{2}/\d{2}/\d{2,4})] *)
Definition data_grupo : list op :=
  [MARK 0;
   REPEAT_ONE 2 (Some 2) digit; ONE (LITERAL (chr "/"));
   REPEAT_ONE 2 (Some 2) digit; ONE (LITERAL (chr "/"));
   REPEAT_ONE 2 (Some 4) digit;
   MARK 1].

(** [SALDO DIA] under [re.IGNORECASE]: a cased letter is compared through
    the lower-case mapping, and [s] and [i] also stand for U+017F and
    U+0131. *)
Definition saldo_dia : list op :=
  [ONE (IN_UNI_IGNORE [SET_LITERAL (chr "s"); SET_LITERAL 383%N]);
   ONE (LITERAL_UNI_IGNORE (chr "a"));
   ONE (LITERAL_UNI_IGNORE (chr "l"));
   ONE (LITERAL_UNI_IGNORE (chr "d"));
   ONE (LITERAL_UNI_IGNORE (chr "o"));
   ONE (LITERAL (chr " "));
   ONE (LITERAL_UNI_IGNORE (chr "d"));
   ONE (IN_UNI_IGNORE [SET_LITERAL (chr "i"); SET_LITERAL 305%N]);
   ONE (LITERAL_UNI_IGNORE (chr "a"))].

(** Everything of the pattern before the second group. *)
Definition regex_cabeca : list op :=
  data_grupo
  ++ [REPEAT_ONE 1 None space; REPEAT_ONE 1 None digit;
      REPEAT_ONE 1 None space]
  ++ saldo_dia
  ++ [REPEAT_ONE 1 None space]
  ++ valor ++ marcador
  ++ [REPEAT_ONE 1 None space].

(** [([\d\.],\d{2})\s[CD]?] *)
Definition regex_cauda : list op :=
  [MARK 2] ++ valor ++ [MARK 3] ++ marcador.

(** [(\d{2}/\d{2}/\d{2,4})\s+\d+\s+SALDO DIA\s+[\d\.],\d{2}\s[CD]?\s+([\d\.],\d{2})\s[CD]?]
    compiled with [re.IGNORECASE]. *)
Definition regex_saldo_dia : list op := regex_cabeca ++ regex_cauda.

(** [s.strip()] *)
Fixpoint lstrip (s : str) : str :=
  match s with
  | c :: s' => if Unicode.isspace c then lstrip s' else s
  | [] => []
  end.
Definition strip (s : str) : str := rev (lstrip (rev (lstrip s))).

(** [s.replace] of every "." by the empty string. *)
Definition replace_dot (s : str) : str :=
  filter (fun c => negb (c =? chr ".")%N) s.

(** The body of the [for match in matches] loop: one tuple per match. *)
Definition registro (texto_completo : str) (m : Match) : str * str :=
  let data := group texto_completo m 1 in
  let saldo_bruto := strip (group texto_completo m 2) in
  let saldo_limpo := replace_dot saldo_bruto in
  (data, saldo_limpo).

(** Steps 2 and 3 of [extrair_dados_pdf]: the list [resultados_encontrados]
    for a text already read. *)
Definition resultados_encontrados (texto_completo : str) : list (str * str) :=
  map (registro texto_completo) (finditer regex_saldo_dia texto_completo).

(** *** Reading the text of a PDF

    What [pdfplumber] does with an uploaded file is an input of the
    model: opening it raises or gives its pages, and [extract_text] on a
    page raises or returns [None] or a string. *)

Inductive pagina : Type :=
| extract_text_raises (e : str)
| extract_text_returns (texto_pagina : option str).

Inductive arquivo_pdf : Type :=
| open_raises (e : str)
| open_returns (pages : list pagina).

Inductive result (A : Type) : Type :=
| Ok (a : A)
| Raise (e : str).
Arguments Ok {A} a.
Arguments Raise {A} e.

(** Truth value of [texto_pagina] in [if texto_pagina:]. *)
Definition truthy (texto_pagina : option str) : bool :=
  match texto_pagina with
  | Some (_ :: _) => true
  | _ => false
  end.

(** The [for pagina in pdf.pages] loop, from the text built so far. *)
Fixpoint ler_paginas (pages : list pagina) (texto_completo : str) : result str :=
  match pages with
  | [] => Ok texto_completo
  | extract_text_raises e :: _ => Raise e
  | extract_text_returns texto_pagina :: rest =>
      ler_paginas rest
        (match texto_pagina with
         | Some t => if truthy texto_pagina
                     then texto_completo ++ t ++ newline
                     else texto_completo
         | None => texto_completo
         end)
  end.

(** Step 1 of [extrair_dados_pdf]. *)
Definition ler_texto (arquivo : arquivo_pdf) : result str :=
  match arquivo with
  | open_raises e => Raise e
  | open_returns pages => ler_paginas pages []
  end.

(** The calls into [streamlit] that the program makes, in order. *)
Record linha : Type := mkLinha
  { Arquivo : str; Data : str; Saldo_do_Dia : str }.

Definition DataFrame := list linha.

Inductive st_call : Type :=
| st_error (msg : str)
| st_info (msg : str)
| st_warning (msg : str)
| st_success (msg : str)
| st_progress (feitos total : nat)
| st_subheader (msg : str)
| st_markdown (msg : str)
| st_dataframe (colunas : list str) (df : DataFrame)
| st_download_button (file_name : str) (df : DataFrame).

(** The value [extrair_dados_pdf] returns: a list of tuples or a string. *)
Inductive py_value : Type :=
| py_list (l : list (str * str))
| py_str (s : str).

Definition extrair_dados_pdf (arquivo : arquivo_pdf) : py_value * list st_call :=
  match ler_texto arquivo with
  | Ok texto_completo => (py_list (resultados_encontrados texto_completo), [])
  | Raise e =>
      (py_str (u "Erro na leitura"),
       [st_error (u "Erro ao processar o arquivo: " ++ e)])
  end.

(** ** [main] *)

Record UploadedFile : Type := mkFile
  { name : str; conteudo : arquivo_pdf }.

Definition N_A : str := u "N/A".
Definition saldo_nao_encontrado : str :=
  u "Saldo n" ++ [227%N] ++ u "o encontrado".
Definition erro_ao_ler_pdf : str := u "Erro ao ler PDF".

(** The rows one iteration of the loop appends for [file], given what
    [extrair_dados_pdf] returned. *)
Definition linhas (file_name : str) (resultados_extracao : py_value) : list linha :=
  match resultados_extracao with
  | py_list [] => [mkLinha file_name N_A saldo_nao_encontrado]
  | py_list l =>
      map (fun '(data_ext, saldo_ext) => mkLinha file_name data_ext saldo_ext) l
  | py_str s =>
      if str_eqb s (u "Erro na leitura")
      then [mkLinha file_name N_A erro_ao_ler_pdf]
      else []
  end.

(** The [for i, file in enumerate(uploaded_files)] loop, from index [i]
    and from the list [lista_resultados] built so far. *)
Fixpoint processar (total_files i : nat) (files : list UploadedFile)
  (lista_resultados : list linha) : list linha * list st_call :=
  match files with
  | [] => (lista_resultados, [])
  | file :: rest =>
      let '(resultados_extracao, erros) := extrair_dados_pdf (conteudo file) in
      let '(final, depois) :=
        processar total_files (S i) rest
          (lista_resultados ++ linhas (name file) resultados_extracao) in
      (final,
       [st_info (u "Processando: " ++ name file ++ u "...")]
       ++ erros ++ [st_progress (i + 1) total_files] ++ depois)
  end.

Definition sentinelas : list str := [saldo_nao_encontrado; erro_ao_ler_pdf].

(** [df["Saldo do Dia"].isin([...])] on one row. *)
Definition isin (l : linha) : bool := existsb (str_eqb (Saldo_do_Dia l)) sentinelas.

Definition sucesso_df (df : DataFrame) : DataFrame := filter (fun l => negb (isin l)) df.
Definition falha_df (df : DataFrame) : DataFrame := filter isin df.

Definition empty (df : DataFrame) : bool :=
  match df with [] => true | _ => false end.

(** Step 4 of [main]: the tables and the download button. *)
Definition mostrar (df : DataFrame) : list st_call :=
  if empty df then []
  else
    [st_subheader (u "Resultados do Processamento")]
    ++ (if empty (sucesso_df df) then []
        else [st_markdown ([9989%N] ++ u " *Saldos di" ++ [225%N]
                           ++ u "rios encontrados:*");
              st_dataframe [u "Arquivo"; u "Data"; u "Saldo do Dia"]
                           (sucesso_df df)])
    ++ (if empty (falha_df df) then []
        else [st_markdown ([9888%N] ++ u " *Arquivos onde o saldo n"
                           ++ [227%N] ++ u "o foi encontrado ou houve erro:*");
              st_dataframe [u "Arquivo"; u "Saldo do Dia"] (falha_df df)])
    ++ [st_download_button (u "relatorio_saldos_extraidos.xlsx") df].

(** [st.session_state]: the key ['df_resultados'], absent or bound. *)
Definition session_state := option DataFrame.

(** One run of [main] from the session initialisation on: the files in
    the uploader, whether the button was pressed, and the session state;
    the result is the new session state and the calls made. *)
Definition main (uploaded_files : list UploadedFile) (button : bool)
  (session : session_state) : session_state * list st_call :=
  let df_resultados :=
    match session with Some df => df | None => [] end in
  let '(df_resultados, chamadas) :=
    if button then
      match uploaded_files with
      | _ :: _ =>
          let total_files := List.length uploaded_files in
          let '(lista_resultados, chamadas) :=
            processar total_files 0 uploaded_files [] in
          (lista_resultados,
           [st_progress 0 total_files] ++ chamadas
           ++ [st_success (u "Processamento conclu" ++ [237%N]
                           ++ u "do! Confira os resultados abaixo.")])
      | [] =>
          (df_resultados,
           [st_warning (u "Por favor, fa" ++ [231%N]
                        ++ u "a upload de pelo menos um arquivo PDF.")])
      end
    else (df_resultados, []) in
  (Some df_resultados, chamadas ++ mostrar df_resultados).

End App.

Import Sre App.

(** ** What a successful run of the engine implies

    [accepts code s pos mk e mk'] describes the runs of [code] over [s] without
    fixing which repetition counts are tried first. *)

Definition within (hi : option nat) (k : nat) : Prop :=
  match hi with Some h => k <= h | None => True end.

Fixpoint accepts (code : list op) (s : str) (pos : nat) (mk : marks)
  (e : nat) (mk' : marks) : Prop :=
  match code with
  | [] => e = pos /\ mk' = mk
  | ONE x :: code' =>
      exists c s', s = c :: s' /\ single_match x c = true
                   /\ accepts code' s' (S pos) mk e mk'
  | MARK n :: code' => accepts code' s pos ((n, pos) :: mk) e mk'
  | REPEAT_ONE lo hi x :: code' =>
      exists k, lo <= k /\ within hi k /\ k <= List.length s
                /\ Forall (fun c => single_match x c = true) (firstn k s)
                /\ accepts code' (skipn k s) (pos + k) mk e mk'
  end.

(** The records' order in the text: each match ends before the next starts. *)
Definition precedes (a b : Match) : Prop := m_end a <= m_start b.

(** The rows one file contributes, and the report a batch produces. *)
Definition linhas_arquivo (file : UploadedFile) : list linha :=
  linhas (name file) (fst (extrair_dados_pdf (conteudo file))).

Definition relatorio (uploaded_files : list UploadedFile) : DataFrame :=
  fst (processar (List.length uploaded_files) 0 uploaded_files []).

(** The rows of a file that come from its records (the inner [for] of the
    loop), and the ones that carry a sentinel. *)
Definition linhas_de_registros (file : UploadedFile) : list linha :=
  match fst (extrair_dados_pdf (conteudo file)) with
  | py_list (r :: l) => linhas (name file) (py_list (r :: l))
  | _ => []
  end.

Definition linhas_sentinela (file : UploadedFile) : list linha :=
  match fst (extrair_dados_pdf (conteudo file)) with
  | py_list (_ :: _) => []
  | v => linhas (name file) v
  end.

(** The message [main] shows when it starts on a file. *)
Definition processando (file : UploadedFile) : st_call :=
  st_info (u "Processando: " ++ name file ++ u "...").

(** The text of a document as the specification words it: every page text
    followed by a newline. *)
Definition DocumentText_spec (page_texts : list str) : str :=
  flat_map (fun t => t ++ newline) page_texts.

(** A PDF whose pages all give a text. *)
Definition pdf_de_textos (page_texts : list str) : arquivo_pdf :=
  open_returns (map (fun t => extract_text_returns (Some t)) page_texts).

Definition nao_vazio (t : str) : bool :=
  match t with [] => false | _ => true end.

(** The lines of the specification's scenarios 1 and 2. *)
Definition cenario1 : str := u "01/09/2025 123 SALDO DIA 0,00 C 15.043,90 C".
Definition cenario2 : str := u "05/09/25 45 SALDO DIA 1.200,50 D 9.876,00".

(** A balance as the specification describes it once cleaned: digits, a
    comma, two digits. *)
Definition forma_saldo (s : str) : Prop :=
  exists ds d1 d2,
    s = ds ++ [chr ","; d1; d2]
    /\ Forall (fun c => Unicode.isdecimal c = true) ds
    /\ Unicode.isdecimal d1 = true /\ Unicode.isdecimal d2 = true.

(** The warning of [main] when no file was uploaded. *)
Definition aviso : st_call :=
  st_warning (u "Por favor, fa" ++ [231%N]
              ++ u "a upload de pelo menos um arquivo PDF.").

(** ** Definitions for the further properties *)

(** The page texts [ler_paginas] keeps: those that are a non-empty string. *)
Definition textos_lidos (tps : list (option str)) : list str :=
  flat_map (fun tp => match tp with
                      | Some (c :: t) => [c :: t]
                      | _ => []
                      end) tps.

(** A PDF whose pages all return from [extract_text]. *)
Definition pdf_de_paginas (tps : list (option str)) : arquivo_pdf :=
  open_returns (map extract_text_returns tps).


(** Whether a file gave no record: its text has no match, or reading it
    failed. *)
Definition sem_registros (file : UploadedFile) : bool :=
  match fst (extrair_dados_pdf (conteudo file)) with
  | py_list (_ :: _) => false
  | _ => true
  end.

(** The least number of characters a run of [code] consumes. *)
Fixpoint min_len (code : list op) : nat :=
  match code with
  | [] => 0
  | ONE _ :: code' => 1 + min_len code'
  | REPEAT_ONE lo _ _ :: code' => lo + min_len code'
  | MARK _ :: code' => min_len code'
  end.

(** Whether [code] sets no mark. *)
Definition sem_marcas (code : list op) : bool :=
  forallb (fun o => match o with MARK _ => false | _ => true end) code.

(** The one-character operations of [code]. *)
Definition singles (code : list op) : list single :=
  flat_map (fun o => match o with
                     | ONE x => [x]
                     | REPEAT_ONE _ _ x => [x]
                     | MARK _ => []
                     end) code.

(** The ASCII letters A-Z to a-z, every other code point in place. *)
Definition ascii_lower (c : N) : N :=
  if ((65 <=? c) && (c <=? 90))%N then (c + 32)%N else c.

(** ** Lemmas on the engine *)

Section Engine.

Lemma str_eqb_eq (a b : str) : str_eqb a b = true <-> a = b.
Proof.
  revert b; induction a as [|x a IH]; intros [|y b]; simpl;
    try (split; congruence).
  rewrite andb_true_iff, N.eqb_eq, IH. split.
  - intros [-> ->]; reflexivity.
  - intros H; injection H; auto.
Qed.

Lemma backtrack_some {R : Type} (f : nat -> option R) lo k r :
  backtrack f lo k = Some r -> exists j, lo <= j <= k /\ f j = Some r.
Proof.
  induction k as [|k IH]; simpl.
  - destruct lo; simpl; [|discriminate].
    destruct (f 0) eqn:E; [|discriminate].
    intros [= <-]. exists 0. split; [lia|assumption].
  - destruct (S k <? lo) eqn:Hlt; [discriminate|].
    apply Nat.ltb_ge in Hlt.
    destruct (f (S k)) eqn:E.
    + intros [= <-]. exists (S k). split; [lia|assumption].
    + intros H. destruct (IH H) as (j & Hj & Hf).
      exists j. split; [lia|assumption].
Qed.

Lemma sre_count_spec x hi s :
  sre_count x hi s <= List.length s
  /\ within hi (sre_count x hi s)
  /\ forall k, k <= sre_count x hi s ->
               Forall (fun c => single_match x c = true) (firstn k s).
Proof.
  revert hi; induction s as [|c s IH]; intros hi.
  - destruct hi as [[|h]|]; simpl; repeat split; try lia;
      intros k Hk; replace k with 0 by lia; constructor.
  - destruct hi as [[|h]|]; simpl.
    + repeat split; try lia.
      intros k Hk; replace k with 0 by lia; constructor.
    + destruct (single_match x c) eqn:E.
      * destruct (IH (Some h)) as (H1 & H2 & H3). simpl in H2.
        repeat split; try lia.
        intros [|k] Hk; simpl; constructor; [assumption|].
        apply H3; lia.
      * repeat split; try lia.
        intros k Hk; replace k with 0 by lia; constructor.
    + destruct (single_match x c) eqn:E.
      * destruct (IH None) as (H1 & H2 & H3).
        repeat split; try lia.
        intros [|k] Hk; simpl; constructor; [assumption|].
        apply H3; lia.
      * repeat split; try lia.
        intros k Hk; replace k with 0 by lia; constructor.
Qed.

Lemma sre_match_accepts code :
  forall s pos mk e mk',
    sre_match code s pos mk = Some (e, mk') -> accepts code s pos mk e mk'.
Proof.
  induction code as [|[x|lo hi x|n] code IH]; intros s pos mk e mk'; simpl.
  - intros [= <- <-]; split; reflexivity.
  - destruct s as [|c s']; [discriminate|].
    destruct (single_match x c) eqn:E; [|discriminate].
    intros H. exists c, s'. repeat split; auto.
  - intros H. apply backtrack_some in H as (k & Hk & H).
    destruct (sre_count_spec x hi s) as (H1 & H2 & H3).
    exists k. repeat split; try lia.
    + destruct hi; simpl in *; [lia|exact I].
    + apply H3; lia.
    + apply IH; assumption.
  - apply IH.
Qed.

(** A run consumes a part of the text it was given. *)
Lemma accepts_span code :
  forall s pos mk e mk',
    accepts code s pos mk e mk' -> pos <= e <= pos + List.length s.
Proof.
  induction code as [|[x|lo hi x|n] code IH]; intros s pos mk e mk'; simpl.
  - intros [-> _]; lia.
  - intros (c & s' & -> & _ & H). apply IH in H. simpl; lia.
  - intros (k & _ & _ & Hk & _ & H). apply IH in H.
    rewrite length_skipn in H. lia.
  - intros H. apply IH in H. assumption.
Qed.

Lemma accepts_app c1 c2 :
  forall s pos mk e mk',
    accepts (c1 ++ c2) s pos mk e mk' ->
    exists k mk1,
      k <= List.length s
      /\ accepts c1 s pos mk (pos + k) mk1
      /\ accepts c2 (skipn k s) (pos + k) mk1 e mk'.
Proof.
  induction c1 as [|[x|lo hi x|n] c1 IH]; intros s pos mk e mk'; simpl.
  - intros H. exists 0, mk. rewrite Nat.add_0_r. simpl.
    repeat split; [lia|assumption].
  - intros (c & s' & -> & Hc & H).
    apply IH in H as (k & mk1 & Hk & H1 & H2).
    exists (S k), mk1. repeat split; [simpl; lia| |].
    + exists c, s'. repeat split; auto.
      replace (pos + S k) with (S pos + k) by lia. assumption.
    + simpl. replace (pos + S k) with (S pos + k) by lia. assumption.
  - intros (j & Hlo & Hhi & Hj & Hall & H).
    apply IH in H as (k & mk1 & Hk & H1 & H2).
    rewrite length_skipn in Hk.
    exists (j + k), mk1. repeat split; [lia| |].
    + exists j. repeat split; auto.
      replace (pos + (j + k)) with (pos + j + k) by lia. assumption.
    + rewrite skipn_skipn in H2.
      replace (j + k) with (k + j) by lia.
      replace (pos + (k + j)) with (pos + j + k) by lia. assumption.
  - intros H. apply IH in H as (k & mk1 & Hk & H1 & H2).
    exists k, mk1. repeat split; assumption.
Qed.

Lemma charset_digit c : single_match digit c = Unicode.isdecimal c.
Proof. simpl. apply orb_false_r. Qed.

Lemma charset_space c : single_match space c = Unicode.isspace c.
Proof. simpl. apply orb_false_r. Qed.

Lemma charset_digit_or_dot c :
  single_match digit_or_dot c = true ->
  Unicode.isdecimal c = true \/ c = chr ".".
Proof.
  simpl. rewrite orb_false_r, orb_true_iff, N.eqb_eq. tauto.
Qed.

(** The runs of the pattern's last part, [([\d\.],\d{2})\s[CD]?]. *)
Lemma cauda_shape s p mk e mk' :
  accepts regex_cauda s p mk e mk' ->
  exists a d1 d2 w rest,
    s = a :: chr "," :: d1 :: d2 :: w :: rest
    /\ (Unicode.isdecimal a = true \/ a = chr ".")
    /\ Unicode.isdecimal d1 = true /\ Unicode.isdecimal d2 = true
    /\ Unicode.isspace w = true
    /\ mk' = (3, p + 4) :: (2, p) :: mk
    /\ p + 5 <= e.
Proof.
  unfold regex_cauda, valor, marcador.
  cbn [app accepts].
  intros (a & s1 & -> & Ha & c & s2 & -> & Hc & k & Hlo & Hhi & Hk & Hall
          & w & s3 & Hs3 & Hw & j & _ & _ & _ & _ & -> & ->).
  cbn [within] in Hhi. assert (k = 2) as -> by lia.
  destruct s2 as [|d1 [|d2 s2]]; simpl in Hk; try lia.
  cbn [firstn] in Hall. cbn [skipn] in Hs3. subst s2.
  inversion Hall as [|? ? Hd1 Hall']; subst.
  inversion Hall' as [|? ? Hd2 _]; subst.
  rewrite charset_digit in Hd1, Hd2. rewrite charset_space in Hw.
  apply charset_digit_or_dot in Ha.
  cbn [single_match] in Hc. apply N.eqb_eq in Hc. subst c.
  exists a, d1, d2, w, s3.
  repeat split; auto; try lia.
  replace (S (S p) + 2) with (p + 4) by lia. reflexivity.
Qed.

(** What every match of [regex_saldo_dia] looks like around its second
    group. *)
Lemma match_at_shape text pos m :
  match_at regex_saldo_dia text pos = Some m ->
  m_start m = pos
  /\ exists a d1 d2 w,
      group text m 2 = [a; chr ","; d1; d2]
      /\ (Unicode.isdecimal a = true \/ a = chr ".")
      /\ Unicode.isdecimal d1 = true /\ Unicode.isdecimal d2 = true
      /\ nth_error text (group_end m 2) = Some w
      /\ Unicode.isspace w = true
      /\ pos <= group_start m 2
      /\ group_end m 2 = group_start m 2 + 4
      /\ group_end m 2 < m_end m <= List.length text.
Proof.
  unfold match_at.
  destruct (sre_match regex_saldo_dia (skipn pos text) pos []) as [[e mk]|] eqn:E;
    [|discriminate].
  intros [= <-]. split; [reflexivity|].
  apply sre_match_accepts in E.
  pose proof (accepts_span _ _ _ _ _ _ E) as Hspan.
  unfold regex_saldo_dia in E.
  apply accepts_app in E as (k & mk1 & Hk & _ & H2).
  apply cauda_shape in H2
    as (a & d1 & d2 & w & rest & Hs & Ha & Hd1 & Hd2 & Hw & -> & He).
  rewrite skipn_skipn in Hs.
  assert (Hnth : nth_error text (pos + k + 4) = Some w).
  { replace (pos + k + 4) with (k + pos + 4) by lia.
    rewrite <- nth_error_skipn, Hs. reflexivity. }
  assert (Hlen : pos + k + 4 < List.length text).
  { apply nth_error_Some. rewrite Hnth. discriminate. }
  rewrite length_skipn in Hspan.
  exists a, d1, d2, w.
  unfold group, group_start, group_end, slice; cbn [m_marks m_end lastmark
    Nat.mul Nat.add Nat.sub Nat.eqb].
  replace (pos + k + 4 - (pos + k)) with 4 by lia.
  replace (pos + k) with (k + pos) by lia. rewrite Hs.
  replace (k + pos + 4) with (pos + k + 4) by lia.
  repeat split; auto; lia.
Qed.

(** The runs of [[\d\.],\d{2}\s[CD]?\s+], the transaction amount. *)
Lemma valor_shape s p mk e mk' :
  accepts (valor ++ marcador ++ [REPEAT_ONE 1 None space]) s p mk e mk' ->
  exists a d1 d2 w rest,
    s = a :: chr "," :: d1 :: d2 :: w :: rest
    /\ (Unicode.isdecimal a = true \/ a = chr ".")
    /\ Unicode.isdecimal d1 = true /\ Unicode.isdecimal d2 = true
    /\ Unicode.isspace w = true
    /\ p + 6 <= e.
Proof.
  unfold valor, marcador.
  cbn [app accepts].
  intros (a & s1 & -> & Ha & c & s2 & -> & Hc & k & Hlo & Hhi & Hk & Hall
          & w & s3 & Hs3 & Hw & j & _ & _ & _ & _ & r & Hr & _ & _ & _ & -> & _).
  cbn [within] in Hhi. assert (k = 2) as -> by lia.
  destruct s2 as [|d1 [|d2 s2]]; simpl in Hk; try lia.
  cbn [firstn] in Hall. cbn [skipn] in Hs3. subst s2.
  inversion Hall as [|? ? Hd1 Hall']; subst.
  inversion Hall' as [|? ? Hd2 _]; subst.
  rewrite charset_digit in Hd1, Hd2. rewrite charset_space in Hw.
  apply charset_digit_or_dot in Ha.
  cbn [single_match] in Hc. apply N.eqb_eq in Hc. subst c.
  exists a, d1, d2, w, s3.
  repeat split; auto; lia.
Qed.

(** Where the transaction amount of a match lies: before the second group,
    and followed by a whitespace character. *)
Lemma match_at_valor text pos m :
  match_at regex_saldo_dia text pos = Some m ->
  exists q a d1 d2 w,
    pos <= q /\ q + 6 <= group_start m 2
    /\ slice text q (q + 5) = [a; chr ","; d1; d2; w]
    /\ (Unicode.isdecimal a = true \/ a = chr ".")
    /\ Unicode.isdecimal d1 = true /\ Unicode.isdecimal d2 = true
    /\ Unicode.isspace w = true.
Proof.
  unfold match_at.
  destruct (sre_match regex_saldo_dia (skipn pos text) pos []) as [[e mk]|] eqn:E;
    [|discriminate].
  intros [= <-].
  apply sre_match_accepts in E.
  unfold regex_saldo_dia in E.
  apply accepts_app in E as (k & mk1 & Hk & H1 & H2).
  apply cauda_shape in H2 as (_ & _ & _ & _ & _ & _ & _ & _ & _ & _ & -> & _).
  unfold regex_cabeca in H1.
  apply accepts_app in H1 as (k1 & m1 & _ & _ & H1).
  apply accepts_app in H1 as (k2 & m2 & _ & _ & H1).
  apply accepts_app in H1 as (k3 & m3 & _ & _ & H1).
  apply accepts_app in H1 as (k4 & m4 & _ & _ & H1).
  apply valor_shape in H1
    as (a & d1 & d2 & w & rest & Hs & Ha & Hd1 & Hd2 & Hw & He).
  rewrite !skipn_skipn in Hs.
  exists (k4 + k3 + k2 + k1 + pos), a, d1, d2, w.
  unfold group_start, slice; cbn [m_marks lastmark Nat.mul Nat.add Nat.sub Nat.eqb].
  replace (k4 + k3 + k2 + k1 + pos + 5 - (k4 + k3 + k2 + k1 + pos))
    with 5 by lia.
  rewrite Hs.
  repeat split; auto; lia.
Qed.

(** *** The scan *)

Lemma match_at_start code text pos m :
  match_at code text pos = Some m -> m_start m = pos.
Proof.
  unfold match_at. destruct (sre_match _ _ _ _) as [[e mk]|]; [|discriminate].
  intros [= <-]; reflexivity.
Qed.

Lemma scan_in code text s :
  forall pos skip m,
    In m (scan code text s pos skip) ->
    pos + skip <= m_start m /\ match_at code text (m_start m) = Some m.
Proof.
  induction s as [|c s IH]; intros pos skip m; simpl.
  - destruct skip; [|contradiction].
    destruct (match_at code text pos) as [m0|] eqn:E; [|contradiction].
    intros [<-|[]]. rewrite (match_at_start _ _ _ _ E). split; [lia|assumption].
  - destruct skip as [|k].
    + destruct (match_at code text pos) as [m0|] eqn:E.
      * intros [<-|H].
        -- rewrite (match_at_start _ _ _ _ E). split; [lia|assumption].
        -- apply IH in H as [H1 H2]. split; [lia|assumption].
      * intros H. apply IH in H as [H1 H2]. split; [lia|assumption].
    + intros H. apply IH in H as [H1 H2]. split; [lia|assumption].
Qed.

Lemma scan_sorted code text s :
  forall pos skip, StronglySorted precedes (scan code text s pos skip).
Proof.
  induction s as [|c s IH]; intros pos skip; simpl.
  - destruct skip; [|constructor].
    destruct (match_at code text pos); repeat constructor.
  - destruct skip as [|k]; [|apply IH].
    destruct (match_at code text pos) as [m0|] eqn:E; [|apply IH].
    constructor; [apply IH|].
    apply Forall_forall. intros m Hm. apply scan_in in Hm as [Hm _].
    unfold precedes. lia.
Qed.

(** Leftmost first: a position at which the pattern matches is the start
    of a match found, unless it lies inside a match found earlier. *)
Lemma scan_leftmost code text s :
  forall pos skip p m',
    pos + skip <= p <= pos + List.length s ->
    match_at code text p = Some m' ->
    In m' (scan code text s pos skip)
    \/ exists m, In m (scan code text s pos skip)
                 /\ m_start m < p < m_end m.
Proof.
  induction s as [|c s IH]; intros pos skip p m' Hp Hm'; simpl in *.
  - assert (skip = 0) as -> by lia. assert (p = pos) as -> by lia.
    rewrite Hm'. left; left; reflexivity.
  - destruct skip as [|k].
    + destruct (Nat.eq_dec p pos) as [->|Hne].
      * rewrite Hm'. left; left; reflexivity.
      * destruct (match_at code text pos) as [m0|] eqn:E.
        -- destruct (Nat.le_gt_cases (S pos + (m_end m0 - pos - 1)) p) as [Hle|Hgt].
           ++ destruct (IH (S pos) (m_end m0 - pos - 1) p m') as [H|(m & H & Hin)];
                [lia|assumption| |].
              ** left; right; assumption.
              ** right; exists m; split; [right; assumption|lia].
           ++ right; exists m0; split; [left; reflexivity|].
              rewrite (match_at_start _ _ _ _ E). lia.
        -- apply IH; [lia|assumption].
    + apply IH; [lia|assumption].
Qed.

End Engine.

(** ** Lemmas on the application *)

Section Application.

Lemma isdecimal_not_space c :
  Unicode.isdecimal c = true -> Unicode.isspace c = false.
Proof.
  intros Hd. destruct (Unicode.isspace c) eqn:Hs; [|reflexivity].
  unfold Unicode.isspace in Hs.
  apply existsb_exists in Hs as (x & Hin & Hx).
  apply N.eqb_eq in Hx. subst x.
  unfold Unicode.whitespace in Hin. simpl in Hin.
  repeat (destruct Hin as [<-|Hin]; [vm_compute in Hd; discriminate|]).
  contradiction.
Qed.

Lemma isdecimal_not_dot c : Unicode.isdecimal c = true -> (c =? chr ".")%N = false.
Proof.
  intros Hd. destruct (N.eqb_spec c (chr ".")) as [->|]; [|reflexivity].
  vm_compute in Hd. discriminate.
Qed.

Lemma strip_token a d1 d2 :
  Unicode.isspace a = false -> Unicode.isspace d2 = false ->
  strip [a; chr ","; d1; d2] = [a; chr ","; d1; d2].
Proof.
  intros Ha Hd. unfold strip. cbn [lstrip]. rewrite Ha.
  cbn [rev app lstrip]. rewrite Hd. reflexivity.
Qed.

Lemma replace_dot_no_dot s : count_occ N.eq_dec (replace_dot s) (chr ".") = 0.
Proof.
  apply count_occ_not_In. unfold replace_dot. intros H.
  apply filter_In in H as [_ H]. rewrite N.eqb_refl in H. discriminate.
Qed.

(** The tuple built from a match: its balance is the second group without
    its dot, and has one of two shapes. *)
Lemma registro_shape text m :
  In m (finditer regex_saldo_dia text) ->
  exists a d1 d2,
    group text m 2 = [a; chr ","; d1; d2]
    /\ Unicode.isdecimal d1 = true /\ Unicode.isdecimal d2 = true
    /\ snd (registro text m) = replace_dot (group text m 2)
    /\ ((Unicode.isdecimal a = true
         /\ snd (registro text m) = [a; chr ","; d1; d2])
        \/ (a = chr "." /\ snd (registro text m) = [chr ","; d1; d2])).
Proof.
  intros Hin. apply scan_in in Hin as [_ Hm].
  apply match_at_shape in Hm
    as (_ & a & d1 & d2 & w & Hg & Ha & Hd1 & Hd2 & _).
  exists a, d1, d2. unfold registro. cbn [snd]. rewrite Hg.
  assert (Hsa : Unicode.isspace a = false).
  { destruct Ha as [Ha| ->]; [apply isdecimal_not_space; assumption|reflexivity]. }
  rewrite (strip_token a d1 d2 Hsa (isdecimal_not_space _ Hd2)).
  repeat split; auto.
  unfold replace_dot. cbn [filter].
  rewrite (isdecimal_not_dot _ Hd1), (isdecimal_not_dot _ Hd2).
  change ((chr "," =? chr ".")%N) with false. cbn [negb].
  destruct Ha as [Ha| ->].
  - rewrite (isdecimal_not_dot _ Ha). left. split; [assumption|reflexivity].
  - rewrite N.eqb_refl. right. split; reflexivity.
Qed.

Lemma processar_fst total files :
  forall i acc,
    fst (processar total i files acc) = acc ++ flat_map linhas_arquivo files.
Proof.
  induction files as [|file rest IH]; intros i acc; simpl.
  - rewrite app_nil_r. reflexivity.
  - unfold linhas_arquivo at 1.
    destruct (extrair_dados_pdf (conteudo file)) as [v erros]. cbn [fst].
    specialize (IH (S i) (acc ++ linhas (name file) v)).
    destruct (processar total (S i) rest (acc ++ linhas (name file) v))
      as [final depois].
    cbn [fst] in *. rewrite IH, app_assoc. reflexivity.
Qed.

Lemma relatorio_flat_map files : relatorio files = flat_map linhas_arquivo files.
Proof. unfold relatorio. rewrite processar_fst. reflexivity. Qed.

Lemma relatorio_app fs1 fs2 : relatorio (fs1 ++ fs2) = relatorio fs1 ++ relatorio fs2.
Proof. rewrite !relatorio_flat_map. apply flat_map_app. Qed.

Lemma processar_snd total files :
  forall i acc file,
    In file files -> In (processando file) (snd (processar total i files acc)).
Proof.
  induction files as [|f rest IH]; intros i acc file; simpl; [contradiction|].
  destruct (extrair_dados_pdf (conteudo f)) as [v erros].
  specialize (IH (S i) (acc ++ linhas (name f) v) file).
  destruct (processar total (S i) rest (acc ++ linhas (name f) v))
    as [final depois].
  cbn [snd] in *. intros [->|Hin].
  - left. reflexivity.
  - right. apply in_or_app. right. right. apply IH. assumption.
Qed.

Lemma main_processa files session :
  files <> [] -> fst (main files true session) = Some (relatorio files).
Proof.
  destruct files as [|file rest]; [congruence|]. intros _.
  unfold main, relatorio.
  destruct (processar (List.length (file :: rest)) 0 (file :: rest) [])
    as [lista chamadas].
  reflexivity.
Qed.

Lemma main_chamadas files session f :
  In f files -> In (processando f) (snd (main files true session)).
Proof.
  destruct files as [|file rest]; [contradiction|].
  intros Hin. unfold main.
  pose proof (processar_snd (List.length (file :: rest)) (file :: rest) 0 [] f Hin) as H.
  destruct (processar (List.length (file :: rest)) 0 (file :: rest) [])
    as [lista chamadas].
  cbn [snd app] in *. right.
  apply in_or_app. left. apply in_or_app. left. assumption.
Qed.

Lemma extrair_ok arquivo texto :
  ler_texto arquivo = Ok texto ->
  fst (extrair_dados_pdf arquivo) = py_list (resultados_encontrados texto).
Proof. unfold extrair_dados_pdf. intros ->. reflexivity. Qed.

Lemma extrair_raise arquivo e :
  ler_texto arquivo = Raise e ->
  fst (extrair_dados_pdf arquivo) = py_str (u "Erro na leitura").
Proof. unfold extrair_dados_pdf. intros ->. reflexivity. Qed.

(** The rows of one file, by what reading it gave. *)
Lemma linhas_arquivo_eq file :
  linhas_arquivo file =
  match ler_texto (conteudo file) with
  | Ok texto =>
      match resultados_encontrados texto with
      | [] => [mkLinha (name file) N_A saldo_nao_encontrado]
      | rs => map (fun r => mkLinha (name file) (fst r) (snd r)) rs
      end
  | Raise _ => [mkLinha (name file) N_A erro_ao_ler_pdf]
  end.
Proof.
  unfold linhas_arquivo.
  destruct (ler_texto (conteudo file)) as [texto|e] eqn:E.
  - rewrite (extrair_ok _ _ E).
    destruct (resultados_encontrados texto) as [|r rs]; [reflexivity|].
    unfold linhas. apply map_ext. intros [d s]. reflexivity.
  - rewrite (extrair_raise _ _ E). reflexivity.
Qed.

Lemma resultados_shape text :
  Forall (fun r => exists m, In m (finditer regex_saldo_dia text)
                             /\ r = registro text m)
         (resultados_encontrados text).
Proof.
  apply Forall_forall. intros r Hr. unfold resultados_encontrados in Hr.
  apply in_map_iff in Hr as (m & <- & Hm). exists m. split; auto.
Qed.

Lemma saldo_curto text :
  Forall (fun r : str * str => List.length (snd r) <= 4)
         (resultados_encontrados text).
Proof.
  eapply Forall_impl; [|apply resultados_shape].
  intros r (m & Hm & ->). cbv beta.
  destruct (registro_shape text m Hm)
    as (a & d1 & d2 & _ & _ & _ & _ & [[_ H]|[_ H]]); rewrite H; simpl; lia.
Qed.

Lemma str_eqb_length a b : str_eqb a b = true -> List.length a = List.length b.
Proof. intros H. apply str_eqb_eq in H. congruence. Qed.

Lemma isin_curto l : List.length (Saldo_do_Dia l) <= 4 -> isin l = false.
Proof.
  intros Hl. unfold isin, sentinelas. cbn [existsb].
  destruct (str_eqb (Saldo_do_Dia l) saldo_nao_encontrado) eqn:E1.
  { apply str_eqb_length in E1.
    change (List.length (Saldo_do_Dia l) = 20) in E1. lia. }
  destruct (str_eqb (Saldo_do_Dia l) erro_ao_ler_pdf) eqn:E2.
  { apply str_eqb_length in E2.
    change (List.length (Saldo_do_Dia l) = 15) in E2. lia. }
  reflexivity.
Qed.

Lemma filter_id {A : Type} (f : A -> bool) l :
  Forall (fun x => f x = true) l -> filter f l = l.
Proof.
  induction 1 as [|x l Hx _ IH]; simpl; [reflexivity|].
  rewrite Hx, IH. reflexivity.
Qed.

Lemma filter_none {A : Type} (f : A -> bool) l :
  Forall (fun x => f x = false) l -> filter f l = [].
Proof.
  induction 1 as [|x l Hx _ IH]; simpl; [reflexivity|].
  rewrite Hx, IH. reflexivity.
Qed.

(** Rows built from records never carry a sentinel. *)
Lemma registros_isin file_name text :
  Forall (fun l => isin l = false)
         (map (fun r => mkLinha file_name (fst r) (snd r))
              (resultados_encontrados text)).
Proof.
  apply Forall_map. eapply Forall_impl; [|apply saldo_curto].
  intros r Hr. apply isin_curto. assumption.
Qed.

Lemma isin_nao_encontrado n : isin (mkLinha n N_A saldo_nao_encontrado) = true.
Proof. reflexivity. Qed.

Lemma isin_erro n : isin (mkLinha n N_A erro_ao_ler_pdf) = true.
Proof. reflexivity. Qed.

Lemma particao_arquivo file :
  sucesso_df (linhas_arquivo file) = linhas_de_registros file
  /\ falha_df (linhas_arquivo file) = linhas_sentinela file.
Proof.
  unfold linhas_de_registros, linhas_sentinela, sucesso_df, falha_df.
  rewrite linhas_arquivo_eq.
  destruct (ler_texto (conteudo file)) as [texto|e] eqn:E.
  - rewrite (extrair_ok _ _ E).
    pose proof (registros_isin (name file) texto) as Hreg.
    destruct (resultados_encontrados texto) as [|r rs].
    + split; reflexivity.
    + split.
      * rewrite filter_id.
        -- unfold linhas. apply map_ext. intros [d s]. reflexivity.
        -- eapply Forall_impl; [|exact Hreg]. intros l ->. reflexivity.
      * apply filter_none. exact Hreg.
  - rewrite (extrair_raise _ _ E). split; reflexivity.
Qed.

End Application.

(** ** Scenarios 1 and 2 *)

(** C1 (the program does otherwise).  The claim: a document whose text
    contains the line of scenario 1 yields the single record
    ("01/09/2025", "15043,90").  The program: the pattern takes one
    character where the balance "15.043,90" has six before its comma, so
    it finds no occurrence, on the line alone and on the document made of
    that page; no text at all gives a balance of more than four
    characters. *)
Theorem C1_cenario1_sem_registro :
  resultados_encontrados cenario1 = []
  /\ fst (extrair_dados_pdf (pdf_de_textos [cenario1])) = py_list []
  /\ forall text,
       Forall (fun r : str * str => List.length (snd r) <= 4)
              (resultados_encontrados text).
Proof.
  split; [vm_compute; reflexivity|].
  split; [vm_compute; reflexivity|].
  apply saldo_curto.
Qed.

(** C2 (the program does otherwise).  The claim: the two amounts of the
    pattern are one or more digit-or-dot characters, a comma and two
    digits, and the line of scenario 2 yields ("05/09/25", "9876,00").
    The program: the second group of every match is exactly four
    characters long, one digit-or-dot character, a comma and two digits,
    and the line of scenario 2 yields nothing, alone and as the only page
    of a document. *)
Theorem C2_valor_de_um_caractere :
  resultados_encontrados cenario2 = []
  /\ fst (extrair_dados_pdf (pdf_de_textos [cenario2])) = py_list []
  /\ forall text,
       Forall (fun m =>
                 exists a d1 d2,
                   group text m 2 = [a; chr ","; d1; d2]
                   /\ (Unicode.isdecimal a = true \/ a = chr ".")
                   /\ Unicode.isdecimal d1 = true
                   /\ Unicode.isdecimal d2 = true)
              (finditer regex_saldo_dia text).
Proof.
  split; [vm_compute; reflexivity|].
  split; [vm_compute; reflexivity|].
  intros text. apply Forall_forall. intros m Hm.
  apply scan_in in Hm as [_ Hm].
  apply match_at_shape in Hm
    as (_ & a & d1 & d2 & w & Hg & Ha & Hd1 & Hd2 & _).
  exists a, d1, d2. auto.
Qed.

(** ** The report builder *)

(** C3.  For one document the loop appends exactly one row
    (name, "N/A", "Saldo não encontrado") when the extractor returned the
    empty list, exactly one row (name, "N/A", "Erro ao ler PDF") when it
    returned its error value, and one row per record, with the name, the
    date and the balance of the record, when it returned a non-empty list;
    the extractor returns nothing else, the two sentinels differ, and the
    report of a batch is made of these rows, document after document. *)
Theorem C3_linhas_por_documento :
  (forall n, linhas n (py_list []) = [mkLinha n N_A saldo_nao_encontrado])
  /\ (forall n, linhas n (py_str (u "Erro na leitura"))
                = [mkLinha n N_A erro_ao_ler_pdf])
  /\ (forall n r rs,
        linhas n (py_list (r :: rs))
        = map (fun x => mkLinha n (fst x) (snd x)) (r :: rs))
  /\ (forall arquivo,
        fst (extrair_dados_pdf arquivo)
        = match ler_texto arquivo with
          | Ok texto => py_list (resultados_encontrados texto)
          | Raise _ => py_str (u "Erro na leitura")
          end)
  /\ saldo_nao_encontrado <> erro_ao_ler_pdf
  /\ (forall file rest session,
        fst (main (file :: rest) true session)
        = Some (flat_map linhas_arquivo (file :: rest)))
  /\ (forall file,
        linhas_arquivo file
        = match ler_texto (conteudo file) with
          | Ok texto =>
              match resultados_encontrados texto with
              | [] => [mkLinha (name file) N_A saldo_nao_encontrado]
              | rs => map (fun r => mkLinha (name file) (fst r) (snd r)) rs
              end
          | Raise _ => [mkLinha (name file) N_A erro_ao_ler_pdf]
          end).
Proof.
  split; [reflexivity|].
  split; [reflexivity|].
  split.
  { intros n r rs. unfold linhas. apply map_ext. intros [d s]. reflexivity. }
  split.
  { intros arquivo. unfold extrair_dados_pdf.
    destruct (ler_texto arquivo); reflexivity. }
  split; [discriminate|].
  split.
  { intros file rest session. rewrite main_processa by discriminate.
    rewrite relatorio_flat_map. reflexivity. }
  apply linhas_arquivo_eq.
Qed.

(** C8.  When the button is pressed with no file uploaded, [main] leaves
    the report of the session as it was (the empty table when there was
    none), builds no row, and its only call besides showing that report
    is the warning. *)
Theorem C8_lote_vazio (session : session_state) :
  let df := match session with Some df => df | None => [] end in
  main [] true session = (Some df, aviso :: mostrar df)
  /\ (forall df0, fst (main [] true (Some df0)) = Some df0)
  /\ In aviso (snd (main [] true session)).
Proof.
  cbv zeta. split; [reflexivity|]. split; [reflexivity|].
  left. reflexivity.
Qed.

(** ** Cleaning the balance *)

(** C4.  For every match found in a text, the balance emitted has no
    occurrence of the dot, it is the captured token with exactly its dots
    taken out, the token holds only digits, commas and dots, and the digits
    and commas of the token are those of the balance, in the same order. *)
Theorem C4_saldo_sem_ponto (text : str) (m : Match) :
  In m (finditer regex_saldo_dia text) ->
  let token := group text m 2 in
  let saldo := snd (registro text m) in
  count_occ N.eq_dec saldo (chr ".") = 0
  /\ saldo = filter (fun c => negb (c =? chr ".")%N) token
  /\ Forall (fun c => Unicode.isdecimal c = true \/ c = chr "," \/ c = chr ".")
            token
  /\ filter (fun c => Unicode.isdecimal c || (c =? chr ",")%N) saldo
     = filter (fun c => Unicode.isdecimal c || (c =? chr ",")%N) token.
Proof.
  intros Hm token saldo.
  destruct (registro_shape text m Hm)
    as (a & d1 & d2 & Hg & Hd1 & Hd2 & Hs & Hcases).
  subst token saldo.
  split; [rewrite Hs; apply replace_dot_no_dot|].
  split; [exact Hs|].
  split.
  { rewrite Hg. repeat apply Forall_cons; try apply Forall_nil.
    - destruct Hcases as [[Ha _]|[-> _]]; auto.
    - right; left; reflexivity.
    - left; assumption.
    - left; assumption. }
  destruct Hcases as [[_ H]|[-> H]]; rewrite H, Hg; [reflexivity|].
  cbn [filter].
  replace (Unicode.isdecimal (chr ".") || (chr "." =? chr ",")%N) with false
    by (vm_compute; reflexivity).
  reflexivity.
Qed.

(** C4 on a line whose balance token is ".,90". *)
Lemma C4_saldo_sem_ponto_witness :
  let text := u "01/09/2025 123 SALDO DIA 0,00 C .,90 C" in
  let m := mkMatch 0 38 [(3, 36); (2, 32); (1, 10); (0, 0)] in
  In m (finditer regex_saldo_dia text)
  /\ group text m 2 = u ".,90"
  /\ snd (registro text m) = u ",90"
  /\ count_occ N.eq_dec (snd (registro text m)) (chr ".") = 0.
Proof.
  cbv zeta.
  assert (H : In (mkMatch 0 38 [(3, 36); (2, 32); (1, 10); (0, 0)])
                 (finditer regex_saldo_dia
                    (u "01/09/2025 123 SALDO DIA 0,00 C .,90 C"))).
  { vm_compute. left. reflexivity. }
  split; [exact H|].
  split; [vm_compute; reflexivity|].
  split; [vm_compute; reflexivity|].
  exact (proj1 (C4_saldo_sem_ponto _ _ H)).
Defined.

(** ** A failure does not stop the batch *)

(** C5.  When reading one document of a batch fails, the report is the rows
    of the documents before it, the one row of the failure, and the rows
    the documents after it give on their own, and [main] starts on every
    document after it. *)
Theorem C5_lote_continua (antes depois : list UploadedFile)
  (ruim : UploadedFile) (e : str) (session : session_state) :
  ler_texto (conteudo ruim) = Raise e ->
  fst (main (antes ++ ruim :: depois) true session)
  = Some (relatorio antes
          ++ [mkLinha (name ruim) N_A erro_ao_ler_pdf]
          ++ relatorio depois)
  /\ Forall (fun f => In (processando f)
                         (snd (main (antes ++ ruim :: depois) true session)))
            depois.
Proof.
  intros Hruim. split.
  - rewrite main_processa by (destruct antes; discriminate).
    rewrite !relatorio_flat_map, flat_map_app. cbn [flat_map].
    rewrite linhas_arquivo_eq, Hruim. reflexivity.
  - apply Forall_forall. intros f Hf. apply main_chamadas.
    apply in_or_app. right. right. assumption.
Qed.

(** C5 on a batch of three files, the second of which cannot be opened. *)
Lemma C5_lote_continua_witness :
  let bom := mkFile (u "a.pdf")
               (pdf_de_textos [u "01/09/2025 123 SALDO DIA 0,00 C 5,90 C"]) in
  let ruim := mkFile (u "b.pdf") (open_raises (u "No /Root object")) in
  ler_texto (conteudo ruim) = Raise (u "No /Root object")
  /\ fst (main ([bom] ++ ruim :: [bom]) true None)
     = Some [mkLinha (u "a.pdf") (u "01/09/2025") (u "5,90");
             mkLinha (u "b.pdf") N_A erro_ao_ler_pdf;
             mkLinha (u "a.pdf") (u "01/09/2025") (u "5,90")].
Proof.
  cbv zeta. split; [reflexivity|].
  rewrite (proj1 (C5_lote_continua
                    [mkFile (u "a.pdf")
                       (pdf_de_textos [u "01/09/2025 123 SALDO DIA 0,00 C 5,90 C"])]
                    [mkFile (u "a.pdf")
                       (pdf_de_textos [u "01/09/2025 123 SALDO DIA 0,00 C 5,90 C"])]
                    (mkFile (u "b.pdf") (open_raises (u "No /Root object")))
                    (u "No /Root object") None eq_refl)).
  vm_compute. reflexivity.
Defined.

(** ** Order *)

(** C6.  The records of a text are built from its matches in the order
    [finditer] gives them; each match there ends before the next one
    starts, is the match the engine finds at its start, is not empty and
    lies in the text; a position at which the pattern matches is the start
    of one of them unless it lies inside one of them (leftmost first,
    without overlap).  The rows of one document follow its records in
    their order under the document's name, and the report of a batch is
    the rows of its documents in upload order. *)
Theorem C6_ordem_preservada (text : str) (file : UploadedFile)
  (rest : list UploadedFile) (session : session_state) :
  let ms := finditer regex_saldo_dia text in
  resultados_encontrados text = map (registro text) ms
  /\ StronglySorted precedes ms
  /\ Forall (fun m => match_at regex_saldo_dia text (m_start m) = Some m
                      /\ m_start m < m_end m <= List.length text) ms
  /\ Forall (fun p => match_at regex_saldo_dia text p = None
                      \/ exists m, In m ms /\ m_start m <= p < m_end m)
            (seq 0 (S (List.length text)))
  /\ linhas_arquivo file
     = match ler_texto (conteudo file) with
       | Ok texto =>
           match resultados_encontrados texto with
           | [] => [mkLinha (name file) N_A saldo_nao_encontrado]
           | rs => map (fun r => mkLinha (name file) (fst r) (snd r)) rs
           end
       | Raise _ => [mkLinha (name file) N_A erro_ao_ler_pdf]
       end
  /\ fst (main (file :: rest) true session)
     = Some (linhas_arquivo file ++ flat_map linhas_arquivo rest).
Proof.
  cbv zeta. split; [reflexivity|].
  split; [apply scan_sorted|].
  split.
  { apply Forall_forall. intros m Hm.
    apply scan_in in Hm as [_ Hm]. split; [assumption|].
    apply match_at_shape in Hm as (Hs & a & d1 & d2 & w & H). lia. }
  split.
  { apply Forall_forall. intros p Hp. apply in_seq in Hp.
    destruct (match_at regex_saldo_dia text p) as [m'|] eqn:E; [right|left; reflexivity].
    destruct (scan_leftmost regex_saldo_dia text text 0 0 p m') as [H|(m & H & Hin)];
      [lia|assumption| |].
    - exists m'. split; [assumption|].
      apply match_at_shape in E as (Hs & a & d1 & d2 & w & H'). lia.
    - exists m. split; [assumption|lia]. }
  split; [apply linhas_arquivo_eq|].
  rewrite main_processa by discriminate.
  rewrite relatorio_flat_map. reflexivity.
Qed.

(** ** The text of a document *)

(** C7 (as the program has it).  The text handed to the matcher is the
    concatenation, in page order, of the page texts that are not empty,
    each followed by a newline; a page whose text is empty adds nothing,
    not even the newline. *)
Theorem C7_texto_completo (page_texts : list str) :
  ler_texto (pdf_de_textos page_texts)
  = Ok (DocumentText_spec (filter nao_vazio page_texts)).
Proof.
  unfold ler_texto, pdf_de_textos.
  change (Ok (DocumentText_spec (filter nao_vazio page_texts))) with
    (@Ok str ([] ++ DocumentText_spec (filter nao_vazio page_texts))).
  generalize (@nil N) as acc.
  induction page_texts as [|t ts IH]; intros acc; simpl.
  - rewrite app_nil_r. reflexivity.
  - destruct t as [|c t]; simpl.
    + apply IH.
    + rewrite IH. f_equal. unfold newline.
      rewrite <- !app_assoc. cbn [app]. rewrite <- !app_assoc. reflexivity.
Qed.

(** C7, the claim as written, fails: a document whose first page has no
    text and whose second page reads "a" gives the text "a\n", not
    "\na\n". *)
Lemma C7_pagina_vazia_sem_newline :
  ler_texto (pdf_de_textos [[]; u "a"]) = Ok (u "a" ++ newline)
  /\ ler_texto (pdf_de_textos [[]; u "a"]) <> Ok (DocumentText_spec [[]; u "a"]).
Proof.
  split; [reflexivity|]. vm_compute. discriminate.
Qed.

(** ** Balances and sentinels *)

(** C9.  Every balance of a record found in a text is made of digits, a
    comma and two digits, and is neither "Saldo não encontrado" nor
    "Erro ao ler PDF"; so, in the report of a batch, the rows shown as
    found are exactly the rows built from records and the rows shown as
    failed are exactly the sentinel rows, each in the order of the
    report. *)
Theorem C9_particao_exata (text : str) (uploaded_files : list UploadedFile) :
  Forall (fun r : str * str =>
            forma_saldo (snd r)
            /\ snd r <> saldo_nao_encontrado
            /\ snd r <> erro_ao_ler_pdf)
         (resultados_encontrados text)
  /\ sucesso_df (relatorio uploaded_files)
     = flat_map linhas_de_registros uploaded_files
  /\ falha_df (relatorio uploaded_files)
     = flat_map linhas_sentinela uploaded_files.
Proof.
  split.
  { eapply Forall_impl; [|apply resultados_shape].
    intros r (m & Hm & ->). cbv beta.
    destruct (registro_shape text m Hm)
      as (a & d1 & d2 & _ & Hd1 & Hd2 & _ & [[Ha H]|[_ H]]); rewrite H.
    - split; [|split; discriminate].
      exists [a], d1, d2. repeat split; auto.
    - split; [|split; discriminate].
      exists [], d1, d2. repeat split; auto. }
  rewrite relatorio_flat_map. unfold sucesso_df, falha_df.
  induction uploaded_files as [|file rest [IH1 IH2]]; [split; reflexivity|].
  cbn [flat_map]. rewrite !filter_app, IH1, IH2.
  destruct (particao_arquivo file) as [H1 H2].
  unfold sucesso_df, falha_df in H1, H2. rewrite H1, H2. split; reflexivity.
Qed.

(** ** The whitespace after an amount *)

(** C10.  In every match found in a text, the character right after the
    closing balance exists and is a whitespace character, so the balance
    never ends where the text ends; the transaction amount, which lies
    before it, is followed by a whitespace character as well.  The C or D
    after that character may be missing: a line without it and with a
    whitespace character after the balance gives its record, and the same
    line cut right after the balance gives none. *)
Theorem C10_espaco_depois_do_valor :
  (forall text,
     Forall (fun m =>
               group_end m 2 < List.length text
               /\ (exists w, nth_error text (group_end m 2) = Some w
                             /\ Unicode.isspace w = true)
               /\ (exists q a d1 d2 w,
                     q + 6 <= group_start m 2
                     /\ slice text q (q + 5) = [a; chr ","; d1; d2; w]
                     /\ Unicode.isspace w = true))
            (finditer regex_saldo_dia text))
  /\ resultados_encontrados (u "05/09/25 45 SALDO DIA 1,50  9,00 ")
     = [(u "05/09/25", u "9,00")]
  /\ resultados_encontrados (u "05/09/25 45 SALDO DIA 1,50  9,00") = [].
Proof.
  split.
  { intros text. apply Forall_forall. intros m Hm.
    apply scan_in in Hm as [_ Hm].
    pose proof (match_at_valor _ _ _ Hm)
      as (q & a & d1 & d2 & w' & _ & Hq & Hsl & _ & _ & _ & Hw').
    apply match_at_shape in Hm
      as (_ & _ & _ & _ & w & _ & _ & _ & _ & Hnth & Hw & _ & _ & He).
    split; [lia|]. split.
    - exists w. split; assumption.
    - exists q, a, d1, d2, w'. repeat split; assumption. }
  split; vm_compute; reflexivity.
Qed.

(** ** Further properties of [main] and of [extrair_dados_pdf] *)

Section Report.

Lemma linhas_arquivo_length file : 1 <= List.length (linhas_arquivo file).
Proof.
  rewrite linhas_arquivo_eq.
  destruct (ler_texto (conteudo file)) as [texto|e]; [|simpl; lia].
  destruct (resultados_encontrados texto); simpl; lia.
Qed.

Lemma linhas_arquivo_nome file :
  Forall (fun l => Arquivo l = name file) (linhas_arquivo file).
Proof.
  rewrite linhas_arquivo_eq.
  destruct (ler_texto (conteudo file)) as [texto|e];
    [|repeat constructor].
  destruct (resultados_encontrados texto) as [|r rs]; [repeat constructor|].
  apply Forall_map. apply Forall_forall. intros x _. reflexivity.
Qed.


Lemma ler_paginas_raise tps e depois :
  forall acc,
    ler_paginas (map extract_text_returns tps ++ extract_text_raises e :: depois) acc
    = Raise e.
Proof.
  induction tps as [|tp tps IH]; intros acc; simpl; [reflexivity|apply IH].
Qed.

Lemma ler_paginas_ok tps :
  forall acc,
    ler_paginas (map extract_text_returns tps) acc
    = Ok (acc ++ DocumentText_spec (textos_lidos tps)).
Proof.
  induction tps as [|tp tps IH]; intros acc; simpl.
  - rewrite app_nil_r. reflexivity.
  - rewrite IH. destruct tp as [[|c t]|]; simpl; try reflexivity.
    f_equal. unfold newline.
    rewrite <- !app_assoc. cbn [app]. rewrite <- !app_assoc. reflexivity.
Qed.


Lemma linhas_sentinela_eq file :
  linhas_sentinela file
  = if sem_registros file
    then [mkLinha (name file) N_A
            (match ler_texto (conteudo file) with
             | Ok _ => saldo_nao_encontrado
             | Raise _ => erro_ao_ler_pdf
             end)]
    else [].
Proof.
  unfold linhas_sentinela, sem_registros, extrair_dados_pdf.
  destruct (ler_texto (conteudo file)) as [texto|e]; cbn [fst]; [|reflexivity].
  destruct (resultados_encontrados texto); reflexivity.
Qed.

Lemma falha_relatorio files :
  falha_df (relatorio files) = flat_map linhas_sentinela files.
Proof.
  rewrite relatorio_flat_map. unfold falha_df.
  induction files as [|file rest IH]; [reflexivity|].
  cbn [flat_map]. rewrite filter_app, IH.
  destruct (particao_arquivo file) as [_ H]. unfold falha_df in H.
  rewrite H. reflexivity.
Qed.

End Report.

(** X1.  Every uploaded file is accounted for: it gives at least one row,
    all its rows carry its name, the report has at least as many rows as
    there are files, every row of the report names an uploaded file and
    every uploaded file is named by a row. *)
Theorem X1_todo_arquivo_aparece (uploaded_files : list UploadedFile) :
  Forall (fun f => 1 <= List.length (linhas_arquivo f)
                   /\ Forall (fun l => Arquivo l = name f) (linhas_arquivo f))
         uploaded_files
  /\ List.length uploaded_files <= List.length (relatorio uploaded_files)
  /\ Forall (fun l => In (Arquivo l) (map name uploaded_files))
            (relatorio uploaded_files)
  /\ Forall (fun f => In (name f) (map Arquivo (relatorio uploaded_files)))
            uploaded_files.
Proof.
  split.
  { apply Forall_forall. intros f _.
    split; [apply linhas_arquivo_length|apply linhas_arquivo_nome]. }
  rewrite relatorio_flat_map.
  split.
  { induction uploaded_files as [|f fs IH]; simpl; [lia|].
    rewrite length_app. pose proof (linhas_arquivo_length f). lia. }
  split.
  { apply Forall_forall. intros l Hl.
    apply in_flat_map in Hl as (f & Hf & Hl).
    pose proof (linhas_arquivo_nome f) as Hn.
    rewrite Forall_forall in Hn. rewrite (Hn l Hl).
    apply in_map. assumption. }
  apply Forall_forall. intros f Hf.
  pose proof (linhas_arquivo_length f) as Hlen.
  pose proof (linhas_arquivo_nome f) as Hn.
  destruct (linhas_arquivo f) as [|l ls] eqn:E; [simpl in Hlen; lia|].
  inversion Hn as [|? ? Hl _]; subst.
  rewrite <- Hl. apply in_map. apply in_flat_map.
  exists f. split; [assumption|]. rewrite E. left. reflexivity.
Qed.


(** X3.  If opening the PDF raises, or if [extract_text] raises on some
    page after pages that returned, the whole document is lost: the
    extractor returns its error string whatever the earlier pages held and
    whatever comes after, it reports the message of the exception, and the
    document gets the single row of a read failure. *)
Theorem X3_excecao_descarta_documento (n e : str) (tps : list (option str))
  (depois : list pagina) :
  let pdf := open_returns (map extract_text_returns tps
                           ++ extract_text_raises e :: depois) in
  extrair_dados_pdf pdf
  = (py_str (u "Erro na leitura"),
     [st_error (u "Erro ao processar o arquivo: " ++ e)])
  /\ extrair_dados_pdf (open_raises e) = extrair_dados_pdf pdf
  /\ linhas_arquivo (mkFile n pdf) = [mkLinha n N_A erro_ao_ler_pdf].
Proof.
  cbv zeta.
  assert (H : ler_texto (open_returns (map extract_text_returns tps
                                       ++ extract_text_raises e :: depois))
              = Raise e) by apply ler_paginas_raise.
  split; [unfold extrair_dados_pdf; rewrite H; reflexivity|].
  split; [unfold extrair_dados_pdf; rewrite H; reflexivity|].
  rewrite linhas_arquivo_eq. cbn [conteudo name]. rewrite H. reflexivity.
Qed.

(** X4.  When every page returns, the text scanned is the pages that are a
    non-empty string, each followed by a newline, in page order; a page
    that returns [None] is skipped like an empty one; and the text is empty
    or ends with a newline. *)
Theorem X4_texto_das_paginas (tps : list (option str)) :
  ler_texto (pdf_de_paginas tps) = Ok (DocumentText_spec (textos_lidos tps))
  /\ (DocumentText_spec (textos_lidos tps) = []
      \/ exists t, DocumentText_spec (textos_lidos tps) = t ++ newline).
Proof.
  split; [apply (ler_paginas_ok tps [])|].
  induction tps as [|tp tps IH]; [left; reflexivity|].
  unfold textos_lidos, DocumentText_spec in *. cbn [flat_map].
  destruct tp as [[|c t]|]; cbn [app flat_map]; try exact IH.
  right. destruct IH as [->|(t' & ->)].
  - exists (c :: t). rewrite app_nil_r. reflexivity.
  - exists (((c :: t) ++ newline) ++ t'). rewrite <- !app_assoc. reflexivity.
Qed.

(** X5.  A PDF none of whose pages returns a non-empty string (no page at
    all, or only pages without selectable text) is not an error: the
    extractor returns the empty list without reporting anything, and the
    document gets the single row "Saldo não encontrado". *)
Theorem X5_pdf_sem_texto (n : str) (tps : list (option str)) :
  Forall (fun tp => truthy tp = false) tps ->
  extrair_dados_pdf (pdf_de_paginas tps) = (py_list [], [])
  /\ linhas_arquivo (mkFile n (pdf_de_paginas tps))
     = [mkLinha n N_A saldo_nao_encontrado].
Proof.
  intros Hall.
  assert (H : ler_texto (pdf_de_paginas tps) = Ok []).
  { unfold pdf_de_paginas, ler_texto. rewrite (ler_paginas_ok tps []).
    cbn [app]. f_equal.
    induction Hall as [|tp tps Htp _ IH]; [reflexivity|].
    unfold textos_lidos, DocumentText_spec in *. cbn [flat_map].
    destruct tp as [[|c t]|]; try discriminate; exact IH. }
  split.
  - unfold extrair_dados_pdf. rewrite H. reflexivity.
  - rewrite linhas_arquivo_eq. cbn [conteudo name]. rewrite H. reflexivity.
Qed.

Lemma X5_pdf_sem_texto_witness :
  Forall (fun tp => truthy tp = false) [None; Some []]
  /\ linhas_arquivo (mkFile (u "digitalizado.pdf") (pdf_de_paginas [None; Some []]))
     = [mkLinha (u "digitalizado.pdf") N_A saldo_nao_encontrado].
Proof.
  assert (H : Forall (fun tp => truthy tp = false) [None; Some (@nil N)])
    by (repeat constructor).
  split; [exact H|].
  exact (proj2 (X5_pdf_sem_texto (u "digitalizado.pdf") [None; Some []] H)).
Defined.


(** X7.  The table of failures lists, in upload order and once each,
    exactly the files that gave no record; its rows all have "N/A" as
    their date, the column that table does not show. *)
Theorem X7_tabela_de_falhas (uploaded_files : list UploadedFile) :
  map Arquivo (falha_df (relatorio uploaded_files))
  = map name (filter sem_registros uploaded_files)
  /\ Forall (fun l => Data l = N_A) (falha_df (relatorio uploaded_files)).
Proof.
  rewrite falha_relatorio.
  induction uploaded_files as [|f fs [IH1 IH2]]; [split; [reflexivity|constructor]|].
  cbn [flat_map filter]. rewrite map_app, IH1, linhas_sentinela_eq.
  destruct (sem_registros f).
  - split; [reflexivity|]. constructor; [reflexivity|assumption].
  - split; [reflexivity|assumption].
Qed.

(** X8.  The two tables of the display split any report: each row is in
    exactly one of them, so together they hold the rows of the report,
    each as often as the report does; no row of the first carries a
    sentinel and every row of the second does. *)
Theorem X8_tabelas_complementares (df : DataFrame) :
  Permutation (sucesso_df df ++ falha_df df) df
  /\ Forall (fun l => isin l = false) (sucesso_df df)
  /\ Forall (fun l => isin l = true) (falha_df df).
Proof.
  unfold sucesso_df, falha_df. split.
  { induction df as [|l df IH]; [constructor|].
    cbn [filter]. destruct (isin l); cbn [negb].
    - apply Permutation_sym, Permutation_cons_app, Permutation_sym, IH.
    - cbn [app]. constructor. exact IH. }
  split; apply Forall_forall; intros l Hl; apply filter_In in Hl as [_ Hl].
  - destruct (isin l); [discriminate|reflexivity].
  - assumption.
Qed.

(** ** Further properties of the pattern *)

Section Pattern.

Lemma accepts_min_len code :
  forall s pos mk e mk',
    accepts code s pos mk e mk' -> pos + min_len code <= e.
Proof.
  induction code as [|[x|lo hi x|n] code IH]; intros s pos mk e mk'; simpl.
  - intros [-> _]; lia.
  - intros (c & s' & _ & _ & H). apply IH in H. lia.
  - intros (k & Hk & _ & _ & _ & H). apply IH in H. lia.
  - intros H. apply IH in H. assumption.
Qed.

Lemma accepts_sem_marcas code :
  sem_marcas code = true ->
  forall s pos mk e mk', accepts code s pos mk e mk' -> mk' = mk.
Proof.
  induction code as [|[x|lo hi x|n] code IH]; simpl; intros Hc s pos mk e mk'.
  - intros [_ ->]; reflexivity.
  - intros (c & s' & _ & _ & H). eapply IH; eauto.
  - intros (k & _ & _ & _ & _ & H). eapply IH; eauto.
  - discriminate.
Qed.

(** The runs of [(\d{2}/\d{2}/\d{2,4})]. *)
Lemma data_shape s p mk e mk' :
  accepts data_grupo s p mk e mk' ->
  exists d1 d2 d3 d4 ys rest,
    s = [d1; d2; chr "/"; d3; d4; chr "/"] ++ ys ++ rest
    /\ Forall (fun c => Unicode.isdecimal c = true) ([d1; d2; d3; d4] ++ ys)
    /\ 2 <= List.length ys <= 4
    /\ e = p + (6 + List.length ys)
    /\ mk' = (1, e) :: (0, p) :: mk.
Proof.
  unfold data_grupo. cbn [accepts].
  intros (k1 & Hlo1 & Hhi1 & Hk1 & Hall1 & c1 & s1 & Hs1 & Hc1
          & k2 & Hlo2 & Hhi2 & Hk2 & Hall2 & c2 & s2 & Hs2 & Hc2
          & k3 & Hlo3 & Hhi3 & Hk3 & Hall3 & -> & ->).
  cbn [within] in *.
  assert (k1 = 2) as -> by lia. assert (k2 = 2) as -> by lia.
  destruct s as [|d1 [|d2 s]]; simpl in Hk1; try lia.
  cbn [firstn skipn] in *. subst s.
  destruct s1 as [|d3 [|d4 s1]]; simpl in Hk2; try lia.
  cbn [firstn skipn] in *. subst s1.
  cbn [single_match] in Hc1, Hc2.
  apply N.eqb_eq in Hc1, Hc2. subst c1 c2.
  exists d1, d2, d3, d4, (firstn k3 s2), (skipn k3 s2).
  rewrite firstn_skipn, length_firstn, Nat.min_l by assumption.
  split; [reflexivity|].
  split.
  { inversion Hall1 as [|? ? Hd1 Hall1']; subst.
    inversion Hall1' as [|? ? Hd2 _]; subst.
    inversion Hall2 as [|? ? Hd3 Hall2']; subst.
    inversion Hall2' as [|? ? Hd4 _]; subst.
    rewrite charset_digit in Hd1, Hd2, Hd3, Hd4.
    cbn [app]. repeat (constructor; [assumption|]).
    eapply Forall_impl; [|exact Hall3].
    intros c Hc. cbv beta in Hc. rewrite charset_digit in Hc. exact Hc. }
  split; [lia|].
  split; [lia|].
  repeat f_equal; lia.
Qed.

(** What every match of [regex_saldo_dia] looks like at its first group. *)
Lemma match_at_data text pos m :
  match_at regex_saldo_dia text pos = Some m ->
  exists d1 d2 d3 d4 ys,
    group text m 1 = [d1; d2; chr "/"; d3; d4; chr "/"] ++ ys
    /\ Forall (fun c => Unicode.isdecimal c = true) ([d1; d2; d3; d4] ++ ys)
    /\ 2 <= List.length ys <= 4
    /\ group_start m 1 = pos
    /\ pos + 32 <= m_end m.
Proof.
  unfold match_at.
  destruct (sre_match regex_saldo_dia (skipn pos text) pos []) as [[e mk]|] eqn:E;
    [|discriminate].
  intros [= <-].
  apply sre_match_accepts in E.
  pose proof (accepts_min_len _ _ _ _ _ _ E) as Hmin.
  change (min_len regex_saldo_dia) with 32 in Hmin.
  unfold regex_saldo_dia in E.
  apply accepts_app in E as (k & mk1 & Hk & H1 & H2).
  apply cauda_shape in H2 as (_ & _ & _ & _ & _ & _ & _ & _ & _ & _ & -> & _).
  unfold regex_cabeca in H1.
  apply accepts_app in H1 as (k1 & m1 & _ & Hd & Hr).
  apply accepts_sem_marcas in Hr; [|reflexivity]. subst mk1.
  apply data_shape in Hd
    as (d1 & d2 & d3 & d4 & ys & rest & Hs & Hall & Hlen & He & ->).
  exists d1, d2, d3, d4, ys.
  unfold group, group_start, group_end, slice;
    cbn [m_marks m_end lastmark Nat.mul Nat.add Nat.sub Nat.eqb].
  repeat split; auto; try lia.
  replace (pos + k1 - pos) with (6 + List.length ys) by lia.
  rewrite Hs.
  change ([d1; d2; chr "/"; d3; d4; chr "/"] ++ ys ++ rest)
    with (d1 :: d2 :: chr "/" :: d3 :: d4 :: chr "/" :: ys ++ rest).
  cbn [Nat.add firstn app]. repeat f_equal.
  rewrite <- (Nat.add_0_r (List.length ys)), firstn_app_2.
  cbn [firstn]. apply app_nil_r.
Qed.

Lemma sorted_count hi ms :
  StronglySorted precedes ms ->
  forall lo,
    Forall (fun m => lo <= m_start m /\ m_start m + 32 <= m_end m
                     /\ m_end m <= hi) ms ->
    32 * List.length ms <= hi - lo.
Proof.
  induction 1 as [|m ms Hs IH Hm]; intros lo Hall; simpl; [lia|].
  inversion Hall as [|? ? (H1 & H2 & H3) Hall']; subst.
  assert (Htail : Forall (fun m0 => m_end m <= m_start m0
                                    /\ m_start m0 + 32 <= m_end m0
                                    /\ m_end m0 <= hi) ms).
  { rewrite Forall_forall in *. intros m0 Hin.
    destruct (Hall' m0 Hin) as (_ & ? & ?). specialize (Hm m0 Hin).
    unfold precedes in Hm. auto. }
  specialize (IH (m_end m) Htail). lia.
Qed.

Lemma resultados_data text :
  Forall (fun r : str * str => 8 <= List.length (fst r) <= 10)
         (resultados_encontrados text).
Proof.
  eapply Forall_impl; [|apply resultados_shape].
  intros r (m & Hm & ->). cbv beta.
  apply scan_in in Hm as [_ Hm].
  apply match_at_data in Hm as (d1 & d2 & d3 & d4 & ys & Hg & _ & Hlen & _).
  unfold registro. cbn [fst]. rewrite Hg, length_app. simpl. lia.
Qed.

End Pattern.

(** X9.  In every match, the date captured starts where the match starts
    and is two digits, a slash, two digits, a slash and two to four
    digits, so every date emitted has eight to ten characters, all of them
    digits or slashes. *)
Theorem X9_forma_da_data (text : str) :
  Forall (fun m =>
            group_start m 1 = m_start m
            /\ fst (registro text m) = group text m 1
            /\ exists d1 d2 d3 d4 ys,
                 group text m 1 = [d1; d2; chr "/"; d3; d4; chr "/"] ++ ys
                 /\ Forall (fun c => Unicode.isdecimal c = true)
                           ([d1; d2; d3; d4] ++ ys)
                 /\ 2 <= List.length ys <= 4)
         (finditer regex_saldo_dia text).
Proof.
  apply Forall_forall. intros m Hm.
  apply scan_in in Hm as [_ Hm].
  pose proof (match_at_start _ _ _ _ Hm) as Hs.
  apply match_at_data in Hm as (d1 & d2 & d3 & d4 & ys & Hg & Hall & Hlen & H1 & _).
  split; [congruence|]. split; [reflexivity|].
  exists d1, d2, d3, d4, ys. auto.
Qed.

(** X10.  In the report of a batch, the date of a row is "N/A" exactly
    when its balance is one of the two sentinels: a row built from a
    record never has "N/A" as its date. *)
Theorem X10_data_na_so_em_sentinela (uploaded_files : list UploadedFile) :
  Forall (fun l => isin l = true <-> Data l = N_A) (relatorio uploaded_files).
Proof.
  rewrite relatorio_flat_map. apply Forall_flat_map.
  apply Forall_forall. intros f _. rewrite linhas_arquivo_eq.
  destruct (ler_texto (conteudo f)) as [texto|e];
    [|constructor; [split; reflexivity|constructor]].
  pose proof (registros_isin (name f) texto) as Hreg.
  pose proof (resultados_data texto) as Hdata.
  destruct (resultados_encontrados texto) as [|r rs];
    [constructor; [split; reflexivity|constructor]|].
  rewrite Forall_map in *.
  rewrite Forall_forall in *. intros x Hx.
  specialize (Hreg x Hx). specialize (Hdata x Hx). cbn [Data] in *.
  rewrite Hreg. split; [discriminate|].
  intros H. rewrite H in Hdata. simpl in Hdata. lia.
Qed.

(** X11.  A match spans at least 32 characters and matches do not overlap,
    so a text gives at most one record per 32 characters; a text shorter
    than 32 characters gives none. *)
Theorem X11_um_registro_por_32_caracteres (text : str) :
  Forall (fun m => m_start m + 32 <= m_end m) (finditer regex_saldo_dia text)
  /\ 32 * List.length (resultados_encontrados text) <= List.length text.
Proof.
  assert (H : Forall (fun m => 0 <= m_start m /\ m_start m + 32 <= m_end m
                               /\ m_end m <= List.length text)
                     (finditer regex_saldo_dia text)).
  { apply Forall_forall. intros m Hm.
    apply scan_in in Hm as [_ Hm].
    pose proof (match_at_start _ _ _ _ Hm) as Hs.
    pose proof (match_at_data _ _ _ Hm) as (_ & _ & _ & _ & _ & _ & _ & _ & _ & H32).
    apply match_at_shape in Hm as (_ & _ & _ & _ & _ & _ & _ & _ & _ & _ & _ & _ & _ & Hle).
    lia. }
  split.
  - eapply Forall_impl; [|exact H]. intros m (_ & Hm & _). exact Hm.
  - unfold resultados_encontrados. rewrite length_map.
    pose proof (sorted_count (List.length text) (finditer regex_saldo_dia text)
                  (scan_sorted _ _ _ _ _) 0 H). lia.
Qed.

Section Separator.

Lemma firstn_add {A : Type} n m (l : list A) :
  firstn (n + m) l = firstn n l ++ firstn m (skipn n l).
Proof.
  revert l; induction n as [|n IH]; intros [|x l]; simpl;
    try rewrite firstn_nil; try reflexivity.
  rewrite IH. reflexivity.
Qed.

Lemma tolower_c_or_d c :
  single_match c_or_d c = true ->
  c = chr "C" \/ c = chr "c" \/ c = chr "D" \/ c = chr "d".
Proof.
  unfold c_or_d. cbn [single_match charset existsb in_item].
  rewrite orb_false_r, orb_true_iff, !N.eqb_eq.
  unfold Unicode.tolower.
  destruct ((65 <=? c) && (c <=? 90))%N eqn:E1.
  - apply andb_true_iff in E1 as [H1 H2].
    apply N.leb_le in H1, H2. unfold chr. simpl N_of_ascii. lia.
  - destruct (N.eqb_spec c 304) as [->|_]; [unfold chr; simpl; lia|].
    destruct (N.eqb_spec c 8490) as [->|_]; [unfold chr; simpl; lia|].
    tauto.
Qed.

(** The runs of [[\d\.],\d{2}\s[CD]?\s+], with what separates the amount
    from what follows. *)
Lemma valor_separador s p mk e mk' :
  accepts (valor ++ marcador ++ [REPEAT_ONE 1 None space]) s p mk e mk' ->
  exists a d1 d2 w marca ws rest,
    s = [a; chr ","; d1; d2] ++ [w] ++ marca ++ ws ++ rest
    /\ Unicode.isspace w = true
    /\ List.length marca <= 1
    /\ Forall (fun c => c = chr "C" \/ c = chr "c" \/ c = chr "D" \/ c = chr "d")
              marca
    /\ 1 <= List.length ws
    /\ Forall (fun c => Unicode.isspace c = true) ws
    /\ e = p + 5 + List.length marca + List.length ws.
Proof.
  unfold valor, marcador.
  cbn [app accepts].
  intros (a & s1 & -> & Ha & c & s2 & -> & Hc & k & Hlo & Hhi & Hk & Hall
          & w & s3 & Hs3 & Hw & j & _ & Hj & Hjlen & Hjall
          & r & Hr & _ & Hrlen & Hrall & -> & _).
  cbn [within] in Hhi, Hj. assert (k = 2) as -> by lia.
  destruct s2 as [|d1 [|d2 s2]]; simpl in Hk; try lia.
  cbn [skipn] in Hs3. subst s2.
  rewrite charset_space in Hw.
  cbn [single_match] in Hc. apply N.eqb_eq in Hc. subst c.
  exists a, d1, d2, w, (firstn j s3), (firstn r (skipn j s3)),
    (skipn r (skipn j s3)).
  rewrite !length_firstn, !Nat.min_l by assumption.
  rewrite firstn_skipn, firstn_skipn.
  split; [reflexivity|]. split; [assumption|]. split; [assumption|].
  split.
  { eapply Forall_impl; [|exact Hjall].
    intros x Hx. apply tolower_c_or_d. exact Hx. }
  split; [assumption|]. split.
  { eapply Forall_impl; [|exact Hrall].
    intros x Hx. cbv beta in Hx. rewrite charset_space in Hx. exact Hx. }
  lia.
Qed.

Lemma match_at_separador text pos m :
  match_at regex_saldo_dia text pos = Some m ->
  exists q a d1 d2 w marca ws,
    slice text q (q + 4) = [a; chr ","; d1; d2]
    /\ slice text (q + 4) (group_start m 2) = [w] ++ marca ++ ws
    /\ group_start m 2 = q + 5 + List.length marca + List.length ws
    /\ Unicode.isspace w = true
    /\ List.length marca <= 1
    /\ Forall (fun c => c = chr "C" \/ c = chr "c" \/ c = chr "D" \/ c = chr "d")
              marca
    /\ 1 <= List.length ws
    /\ Forall (fun c => Unicode.isspace c = true) ws.
Proof.
  unfold match_at.
  destruct (sre_match regex_saldo_dia (skipn pos text) pos []) as [[e mk]|] eqn:E;
    [|discriminate].
  intros [= <-].
  apply sre_match_accepts in E.
  unfold regex_saldo_dia in E.
  apply accepts_app in E as (k & mk1 & Hk & H1 & H2).
  apply cauda_shape in H2 as (_ & _ & _ & _ & _ & _ & _ & _ & _ & _ & -> & _).
  unfold regex_cabeca in H1.
  apply accepts_app in H1 as (k1 & m1 & _ & _ & H1).
  apply accepts_app in H1 as (k2 & m2 & _ & _ & H1).
  apply accepts_app in H1 as (k3 & m3 & _ & _ & H1).
  apply accepts_app in H1 as (k4 & m4 & _ & _ & H1).
  apply valor_separador in H1
    as (a & d1 & d2 & w & marca & ws & rest & Hs & Hw & Hm & Hmall & Hws
        & Hwsall & He).
  rewrite !skipn_skipn in Hs.
  set (q := k4 + k3 + k2 + k1 + pos) in *.
  exists q, a, d1, d2, w, marca, ws.
  unfold group_start, slice;
    cbn [m_marks lastmark Nat.mul Nat.add Nat.sub Nat.eqb].
  assert (Hg : pos + k = q + 5 + List.length marca + List.length ws)
    by (unfold q; lia).
  rewrite Hg.
  replace (q + 4 - q) with 4 by lia.
  replace (q + 5 + List.length marca + List.length ws - (q + 4))
    with (1 + (List.length marca + List.length ws)) by lia.
  replace (q + 4) with (4 + q) at 1 by lia.
  rewrite <- skipn_skipn, Hs.
  cbn [app firstn skipn Nat.add].
  repeat split; auto.
  f_equal. rewrite firstn_add.
  rewrite <- (Nat.add_0_r (List.length marca)) at 1.
  rewrite firstn_app_2. cbn [firstn]. rewrite app_nil_r. f_equal.
  rewrite skipn_app, skipn_all, Nat.sub_diag. cbn [app skipn].
  rewrite <- (Nat.add_0_r (List.length ws)), firstn_app_2.
  cbn [firstn]. apply app_nil_r.
Qed.

End Separator.

(** X12.  In every match, what lies between the transaction amount and the
    balance is a whitespace character, then at most one of the characters
    C, c, D, d, then one or more whitespace characters: the two amounts are
    never separated by a single character. *)
Theorem X12_separador_dos_valores (text : str) :
  Forall (fun m =>
            exists q a d1 d2 w marca ws,
              slice text q (q + 4) = [a; chr ","; d1; d2]
              /\ slice text (q + 4) (group_start m 2) = [w] ++ marca ++ ws
              /\ group_start m 2 = q + 5 + List.length marca + List.length ws
              /\ Unicode.isspace w = true
              /\ List.length marca <= 1
              /\ Forall (fun c => c = chr "C" \/ c = chr "c"
                                  \/ c = chr "D" \/ c = chr "d") marca
              /\ 1 <= List.length ws
              /\ Forall (fun c => Unicode.isspace c = true) ws)
         (finditer regex_saldo_dia text).
Proof.
  apply Forall_forall. intros m Hm.
  apply scan_in in Hm as [_ Hm].
  exact (match_at_separador _ _ _ Hm).
Qed.

(** ** Letter case *)

Section LetterCase.

Lemma isdecimal_range c :
  Unicode.isdecimal c = true -> (c < 58 \/ 1632 <= c)%N.
Proof.
  unfold Unicode.isdecimal. intros H.
  apply existsb_exists in H as (b & Hb & H).
  apply andb_true_iff in H as [H1 H2].
  apply N.leb_le in H1. apply N.ltb_lt in H2.
  assert (Hruns : forallb (fun b => (b =? 48) || (1632 <=? b))%N
                          Unicode.decimal_runs = true)
    by (vm_compute; reflexivity).
  rewrite forallb_forall in Hruns. specialize (Hruns b Hb).
  apply orb_true_iff in Hruns as [Hr|Hr].
  - apply N.eqb_eq in Hr. lia.
  - apply N.leb_le in Hr. lia.
Qed.

Lemma isspace_range c :
  Unicode.isspace c = true -> (c <= 32 \/ 133 <= c)%N.
Proof.
  unfold Unicode.isspace. intros H.
  apply existsb_exists in H as (b & Hb & H).
  apply N.eqb_eq in H. subst b.
  assert (Hws : forallb (fun b => (b <=? 32) || (133 <=? b))%N
                        Unicode.whitespace = true)
    by (vm_compute; reflexivity).
  rewrite forallb_forall in Hws. specialize (Hws c Hb).
  apply orb_true_iff in Hws as [Hr|Hr]; apply N.leb_le in Hr; lia.
Qed.

Lemma ascii_lower_cases c :
  (65 <= c <= 90 /\ ascii_lower c = c + 32)%N
  \/ ((c < 65 \/ 90 < c)%N /\ ascii_lower c = c).
Proof.
  unfold ascii_lower.
  destruct ((65 <=? c) && (c <=? 90))%N eqn:E.
  - apply andb_true_iff in E as [H1 H2]. apply N.leb_le in H1, H2.
    left. split; [lia|reflexivity].
  - apply andb_false_iff in E as [H|H]; apply N.leb_gt in H;
      right; split; try reflexivity; lia.
Qed.

Lemma isdecimal_false c : (58 <= c < 1632)%N -> Unicode.isdecimal c = false.
Proof.
  intros H. destruct (Unicode.isdecimal c) eqn:E; [|reflexivity].
  apply isdecimal_range in E. lia.
Qed.

Lemma isspace_false c : (32 < c < 133)%N -> Unicode.isspace c = false.
Proof.
  intros H. destruct (Unicode.isspace c) eqn:E; [|reflexivity].
  apply isspace_range in E. lia.
Qed.

Lemma isdecimal_lower c : Unicode.isdecimal (ascii_lower c) = Unicode.isdecimal c.
Proof.
  destruct (ascii_lower_cases c) as [[H ->]|[_ ->]]; [|reflexivity].
  rewrite !isdecimal_false by lia. reflexivity.
Qed.

Lemma isspace_lower c : Unicode.isspace (ascii_lower c) = Unicode.isspace c.
Proof.
  destruct (ascii_lower_cases c) as [[H ->]|[_ ->]]; [|reflexivity].
  rewrite !isspace_false by lia. reflexivity.
Qed.

Lemma tolower_lower c : Unicode.tolower (ascii_lower c) = Unicode.tolower c.
Proof.
  destruct (ascii_lower_cases c) as [[H ->]|[_ ->]]; [|reflexivity].
  unfold Unicode.tolower.
  replace ((65 <=? c) && (c <=? 90))%N with true
    by (symmetry; apply andb_true_iff; split; apply N.leb_le; lia).
  replace ((65 <=? c + 32) && (c + 32 <=? 90))%N with false
    by (symmetry; apply andb_false_iff; right; apply N.leb_gt; lia).
  replace (c + 32 =? 304)%N with false by (symmetry; apply N.eqb_neq; lia).
  replace (c + 32 =? 8490)%N with false by (symmetry; apply N.eqb_neq; lia).
  reflexivity.
Qed.

(** A literal that is no ASCII letter does not see the change of case. *)
Lemma literal_lower l c :
  ((l <? 65) || (122 <? l) || ((90 <? l) && (l <? 97)))%N = true ->
  (ascii_lower c =? l)%N = (c =? l)%N.
Proof.
  intros Hl.
  assert (Hl' : (l < 65 \/ 122 < l \/ (90 < l < 97))%N).
  { apply orb_true_iff in Hl as [Hl|Hl].
    - apply orb_true_iff in Hl as [Hl|Hl]; apply N.ltb_lt in Hl; lia.
    - apply andb_true_iff in Hl as [H1 H2]. apply N.ltb_lt in H1, H2. lia. }
  destruct (ascii_lower_cases c) as [[H ->]|[_ ->]]; [|reflexivity].
  destruct (N.eqb_spec (c + 32) l), (N.eqb_spec c l); try reflexivity; lia.
Qed.

(** The operations of the pattern do not tell a text from its lower-case
    form. *)
Lemma singles_lower :
  Forall (fun x => forall c, single_match x (ascii_lower c) = single_match x c)
         (singles regex_saldo_dia).
Proof.
  unfold regex_saldo_dia, regex_cabeca, regex_cauda, data_grupo, saldo_dia,
    valor, marcador, digit, space, digit_or_dot, c_or_d.
  cbn [singles flat_map app].
  repeat (apply Forall_cons; [intros c|]); try apply Forall_nil;
    cbn [single_match charset existsb in_item];
    rewrite ?isdecimal_lower, ?isspace_lower, ?tolower_lower;
    try reflexivity;
    rewrite literal_lower by reflexivity; reflexivity.
Qed.

Lemma sre_count_map f x :
  (forall c, single_match x (f c) = single_match x c) ->
  forall hi s, sre_count x hi (map f s) = sre_count x hi s.
Proof.
  intros Hx hi s. revert hi.
  induction s as [|c s IH]; intros hi; destruct hi as [[|h]|]; simpl;
    try reflexivity; rewrite Hx, IH; reflexivity.
Qed.

Lemma backtrack_ext {R : Type} (f g : nat -> option R) lo k :
  (forall j, f j = g j) -> backtrack f lo k = backtrack g lo k.
Proof.
  intros Hfg. induction k as [|k IH]; simpl; rewrite Hfg; [reflexivity|].
  rewrite IH. reflexivity.
Qed.

Lemma sre_match_map f code :
  Forall (fun x => forall c, single_match x (f c) = single_match x c)
         (singles code) ->
  forall s pos mk, sre_match code (map f s) pos mk = sre_match code s pos mk.
Proof.
  induction code as [|[x|lo hi x|n] code IH]; cbn [singles flat_map app];
    intros Hall s pos mk; simpl.
  - reflexivity.
  - inversion Hall as [|? ? Hx Hall']; subst.
    destruct s as [|c s]; simpl; [reflexivity|].
    rewrite Hx, IH by assumption. reflexivity.
  - inversion Hall as [|? ? Hx Hall']; subst.
    rewrite sre_count_map by assumption.
    apply backtrack_ext. intros j. rewrite skipn_map. apply IH. assumption.
  - apply IH. assumption.
Qed.

Lemma scan_map f code text :
  Forall (fun x => forall c, single_match x (f c) = single_match x c)
         (singles code) ->
  forall s pos skip,
    scan code (map f text) (map f s) pos skip = scan code text s pos skip.
Proof.
  intros Hall.
  assert (Hat : forall pos, match_at code (map f text) pos = match_at code text pos).
  { intros pos. unfold match_at. rewrite skipn_map, sre_match_map by assumption.
    reflexivity. }
  induction s as [|c s IH]; intros pos skip; simpl.
  - rewrite Hat. reflexivity.
  - destruct skip; [|apply IH]. rewrite Hat.
    destruct (match_at code text pos); rewrite IH; reflexivity.
Qed.

Lemma map_fixed {A : Type} (f : A -> A) l :
  Forall (fun x => f x = x) l -> map f l = l.
Proof.
  induction 1 as [|x l Hx _ IH]; simpl; [reflexivity|].
  rewrite Hx, IH. reflexivity.
Qed.

Lemma ascii_lower_digit c : Unicode.isdecimal c = true -> ascii_lower c = c.
Proof.
  intros H. apply isdecimal_range in H.
  destruct (ascii_lower_cases c) as [[H' _]|[_ ->]]; [lia|reflexivity].
Qed.

Lemma registro_lower text m :
  In m (finditer regex_saldo_dia text) ->
  registro (map ascii_lower text) m = registro text m.
Proof.
  intros Hm. apply scan_in in Hm as [_ Hm].
  pose proof (match_at_data _ _ _ Hm)
    as (e1 & e2 & e3 & e4 & ys & Hg1 & Hall1 & _).
  pose proof (match_at_shape _ _ _ Hm)
    as (_ & a & d1 & d2 & w & Hg2 & Ha & Hd1 & Hd2 & _).
  unfold registro, group, slice in *.
  rewrite !skipn_map, !firstn_map, Hg1, Hg2.
  rewrite (map_fixed ascii_lower ([e1; e2; chr "/"; e3; e4; chr "/"] ++ ys)).
  - rewrite (map_fixed ascii_lower [a; chr ","; d1; d2]); [reflexivity|].
    repeat apply Forall_cons; try apply Forall_nil;
      try (apply ascii_lower_digit; assumption); try reflexivity.
    destruct Ha as [Ha| ->]; [apply ascii_lower_digit; assumption|reflexivity].
  - cbn [app] in Hall1 |- *.
    inversion Hall1 as [|? ? He1 H1]; subst.
    inversion H1 as [|? ? He2 H2]; subst.
    inversion H2 as [|? ? He3 H3]; subst.
    inversion H3 as [|? ? He4 H4]; subst.
    repeat apply Forall_cons;
      try (apply ascii_lower_digit; assumption); try reflexivity.
    eapply Forall_impl; [|exact H4]. intros c Hc.
    apply ascii_lower_digit. exact Hc.
Qed.

End LetterCase.

(** X13.  The records do not depend on the case of the ASCII letters of
    the text: a text and its lower-case form have the same matches, at the
    same positions, and give the same records, with the dates and balances
    as they stand in the text. *)
Theorem X13_caixa_indiferente (text : str) :
  finditer regex_saldo_dia (map ascii_lower text) = finditer regex_saldo_dia text
  /\ resultados_encontrados (map ascii_lower text) = resultados_encontrados text.
Proof.
  assert (H : finditer regex_saldo_dia (map ascii_lower text)
              = finditer regex_saldo_dia text).
  { unfold finditer. apply scan_map. apply singles_lower. }
  split; [exact H|].
  unfold resultados_encontrados. rewrite H.
  apply map_ext_in. intros m Hm. apply registro_lower. exact Hm.
Qed.

(** ** The batch and its display *)

Section Display.






End Display.

(** X14.  The rows the loop appends for a list of files depend neither on
    the index it starts from, nor on the total shown in the progress bar,
    nor on the rows already in the list, which it keeps in front; so a
    batch gives the rows of its first part followed by the rows of the
    rest. *)
Theorem X14_lote_em_partes (total i : nat) (fs1 fs2 : list UploadedFile)
  (lista : list linha) :
  fst (processar total i (fs1 ++ fs2) lista)
  = lista ++ relatorio fs1 ++ relatorio fs2.
Proof.
  rewrite processar_fst, flat_map_app, !relatorio_flat_map. reflexivity.
Qed.

